(** * ClaudeCodeCertificate: a soulbound ERC-721 certificate registry

    Shallow embedding of [contracts/ClaudeCodeCertificate.sol] together with
    the parts of OpenZeppelin Contracts 4.9.6 it inherits and calls
    ([token/ERC721/ERC721.sol], [token/ERC721/extensions/ERC721URIStorage.sol],
    [access/AccessControl.sol], [utils/Counters.sol]).

    Storage mappings are finite maps read with the EVM's zero default,
    [uint256] values are integers with their wrap-around written out, and
    contract code runs in a state-and-revert monad; an external call is one
    transaction, which commits its writes on success and discards them on
    revert.

    Every state-changing external function of the deployed contract is a
    [Call].  Of the read-only ones, [verifyCertificate],
    [getParticipantCertificates], [locked], [ownerOf], [balanceOf],
    [getApproved], [isApprovedForAll], [hasRole] and [getRoleAdmin] are
    embedded; the token name and symbol, [tokenURI] and [supportsInterface]
    read nothing the properties below depend on and are left out. *)

From Stdlib Require Import ZArith Ascii.
From stdpp Require Import gmap strings list pretty.

Open Scope Z_scope.

(** ** Value types *)

Abbreviation address := Z (only parsing).
Abbreviation uint256 := Z (only parsing).
Abbreviation bytes32 := Z (only parsing).
Abbreviation bytes4 := Z (only parsing).
Abbreviation bytes := string (only parsing).

(** [type(uint256).max + 1] *)
Definition UINT256_MOD : Z := 2 ^ 256.

(** [address(0)] *)
Definition address_0 : address := 0.

(** [bytes(s).length > 0] *)
Definition nonempty (s : string) : bool := (0 <? Z.of_nat (String.length s)).

(** ** Structs of the contract *)

Record Participant := mkParticipant {
  name : string;
  registeredAt : uint256;
  isRegistered : bool
}.

Record Certificate := mkCertificate {
  recipient : address;
  contentHash : string;
  cohort : string;
  issuedAt : uint256;
  isRevoked : bool
}.

(** The value an unwritten mapping slot reads as. *)
Definition Participant_zero : Participant := mkParticipant EmptyString 0 false.
Definition Certificate_zero : Certificate := mkCertificate address_0 EmptyString EmptyString 0 false.

(** ** Events *)

Inductive Event :=
| ParticipantRegistered (participant : address) (nm : string) (timestamp : uint256)
| CertificateIssued (tokenId : uint256) (rcpt : address) (coh hash : string)
                    (timestamp : uint256)
| CertificateRevoked (tokenId : uint256) (timestamp : uint256)
| Locked (tokenId : uint256)
| Transfer (from to : address) (tokenId : uint256)
| Approval (owner approved : address) (tokenId : uint256)
| ApprovalForAll (owner operator : address) (approved : bool)
| MetadataUpdate (tokenId : uint256)
| RoleGranted (role : bytes32) (account sender : address)
| RoleRevoked (role : bytes32) (account sender : address).

(** ** Reverts

    A [require(cond, msg)] reverts with [Reason msg].  AccessControl builds
    its message from the account and the role, kept here as data. *)

Inductive Error :=
| Reason (msg : string)
| MissingRole (account : address) (role : bytes32)
| ReceiverRevert (reason : string).

Inductive Result (A : Type) :=
| Ok (a : A)
| Revert (e : Error).
Arguments Ok {A} a.
Arguments Revert {A} e.

(** ** Storage *)

Record State := mkState {
  (* AccessControl *)
  _roles_members : gmap (bytes32 * address) bool;
  _roles_adminRole : gmap bytes32 bytes32;
  (* ERC721 *)
  _owners : gmap uint256 address;
  _balances : gmap address uint256;
  _tokenApprovals : gmap uint256 address;
  _operatorApprovals : gmap (address * address) bool;
  (* ERC721URIStorage *)
  _tokenURIs : gmap uint256 string;
  (* ClaudeCodeCertificate *)
  _tokenIdCounter : uint256;
  participants : gmap address Participant;
  certificates : gmap uint256 Certificate;
  _participantCertificates : gmap address (list uint256);
  (* the log of emitted events, oldest first *)
  events : list Event
}.

Definition State_empty : State :=
  mkState ∅ ∅ ∅ ∅ ∅ ∅ ∅ 0 ∅ ∅ ∅ [].

Definition set_roles_members (f : gmap (bytes32 * address) bool -> gmap (bytes32 * address) bool)
    (s : State) : State :=
  mkState (f (_roles_members s)) (_roles_adminRole s) (_owners s) (_balances s)
    (_tokenApprovals s) (_operatorApprovals s) (_tokenURIs s) (_tokenIdCounter s)
    (participants s) (certificates s) (_participantCertificates s) (events s).

Definition set_owners (f : gmap uint256 address -> gmap uint256 address) (s : State) : State :=
  mkState (_roles_members s) (_roles_adminRole s) (f (_owners s)) (_balances s)
    (_tokenApprovals s) (_operatorApprovals s) (_tokenURIs s) (_tokenIdCounter s)
    (participants s) (certificates s) (_participantCertificates s) (events s).

Definition set_balances (f : gmap address uint256 -> gmap address uint256) (s : State) : State :=
  mkState (_roles_members s) (_roles_adminRole s) (_owners s) (f (_balances s))
    (_tokenApprovals s) (_operatorApprovals s) (_tokenURIs s) (_tokenIdCounter s)
    (participants s) (certificates s) (_participantCertificates s) (events s).

Definition set_tokenApprovals (f : gmap uint256 address -> gmap uint256 address)
    (s : State) : State :=
  mkState (_roles_members s) (_roles_adminRole s) (_owners s) (_balances s)
    (f (_tokenApprovals s)) (_operatorApprovals s) (_tokenURIs s) (_tokenIdCounter s)
    (participants s) (certificates s) (_participantCertificates s) (events s).

Definition set_operatorApprovals
    (f : gmap (address * address) bool -> gmap (address * address) bool)
    (s : State) : State :=
  mkState (_roles_members s) (_roles_adminRole s) (_owners s) (_balances s)
    (_tokenApprovals s) (f (_operatorApprovals s)) (_tokenURIs s) (_tokenIdCounter s)
    (participants s) (certificates s) (_participantCertificates s) (events s).

Definition set_tokenURIs (f : gmap uint256 string -> gmap uint256 string) (s : State) : State :=
  mkState (_roles_members s) (_roles_adminRole s) (_owners s) (_balances s)
    (_tokenApprovals s) (_operatorApprovals s) (f (_tokenURIs s)) (_tokenIdCounter s)
    (participants s) (certificates s) (_participantCertificates s) (events s).

Definition set_tokenIdCounter (f : uint256 -> uint256) (s : State) : State :=
  mkState (_roles_members s) (_roles_adminRole s) (_owners s) (_balances s)
    (_tokenApprovals s) (_operatorApprovals s) (_tokenURIs s) (f (_tokenIdCounter s))
    (participants s) (certificates s) (_participantCertificates s) (events s).

Definition set_participants (f : gmap address Participant -> gmap address Participant)
    (s : State) : State :=
  mkState (_roles_members s) (_roles_adminRole s) (_owners s) (_balances s)
    (_tokenApprovals s) (_operatorApprovals s) (_tokenURIs s) (_tokenIdCounter s)
    (f (participants s)) (certificates s) (_participantCertificates s) (events s).

Definition set_certificates (f : gmap uint256 Certificate -> gmap uint256 Certificate)
    (s : State) : State :=
  mkState (_roles_members s) (_roles_adminRole s) (_owners s) (_balances s)
    (_tokenApprovals s) (_operatorApprovals s) (_tokenURIs s) (_tokenIdCounter s)
    (participants s) (f (certificates s)) (_participantCertificates s) (events s).

Definition set_participantCertificates
    (f : gmap address (list uint256) -> gmap address (list uint256)) (s : State) : State :=
  mkState (_roles_members s) (_roles_adminRole s) (_owners s) (_balances s)
    (_tokenApprovals s) (_operatorApprovals s) (_tokenURIs s) (_tokenIdCounter s)
    (participants s) (certificates s) (f (_participantCertificates s)) (events s).

Definition set_events (f : list Event -> list Event) (s : State) : State :=
  mkState (_roles_members s) (_roles_adminRole s) (_owners s) (_balances s)
    (_tokenApprovals s) (_operatorApprovals s) (_tokenURIs s) (_tokenIdCounter s)
    (participants s) (certificates s) (_participantCertificates s) (f (events s)).

(** ** The call environment

    What a call sees besides storage: the sender, the block's timestamp, and
    the code at other addresses.  [onERC721Received a] is [None] when [a] has
    no code, and otherwise what its receiver hook answers.  The hook is taken
    by its answer alone: transactions run one after the other, and a hook
    that calls back into the registry while a mint is under way is outside
    this model. *)

Inductive HookAnswer :=
| HookReturns (retval : bytes4)
| HookRevertsEmpty
| HookRevertsWith (reason : string).

Record Env := mkEnv {
  msg_sender : address;
  block_timestamp : uint256;
  onERC721Received : address -> option (address -> address -> uint256 -> bytes -> HookAnswer)
}.

(** ** The state-and-revert monad

    A computation returns its result with the storage as it stands at that
    point; after a revert this is the storage the transaction throws away. *)

Definition Contract (A : Type) : Type := State -> Result A * State.

Definition ret {A} (a : A) : Contract A := fun s => (Ok a, s).

Definition bind {A B} (m : Contract A) (k : A -> Contract B) : Contract B :=
  fun s =>
    match m s with
    | (Ok a, s') => k a s'
    | (Revert e, s') => (Revert e, s')
    end.

Notation "x <- m ;; k" := (bind m (fun x => k))
  (at level 20, m at level 99, k at level 200, only parsing).
Notation "m ;; k" := (bind m (fun _ => k))
  (at level 100, k at level 200, right associativity, only parsing).

Definition revert {A} (e : Error) : Contract A := fun s => (Revert e, s).

Definition require (cond : bool) (msg : string) : Contract unit :=
  if cond then ret tt else revert (Reason msg).

Definition gets {A} (f : State -> A) : Contract A := fun s => (Ok (f s), s).

Definition modify (f : State -> State) : Contract unit := fun s => (Ok tt, f s).

Definition emit (ev : Event) : Contract unit :=
  modify (set_events (fun l => l ++ [ev])).

(** ** Counters.sol *)

Module Counters.

(** [return counter._value;] *)
Definition current : Contract uint256 := gets _tokenIdCounter.

(** [unchecked { counter._value += 1; }] *)
Definition increment : Contract unit :=
  modify (set_tokenIdCounter (fun v => (v + 1) mod UINT256_MOD)).

End Counters.

(** ** AccessControl.sol *)

Definition DEFAULT_ADMIN_ROLE : bytes32 := 0.

(** [keccak256("ISSUER_ROLE")] *)
Definition ISSUER_ROLE : bytes32 :=
  0x114e74f6ea3bd819998f78687bfcb11b140da08e9b7d222fa9c1f1ba1f2aa122.

Definition hasRole (role : bytes32) (account : address) (s : State) : bool :=
  default false (_roles_members s !! (role, account)).

Definition _checkRole (role : bytes32) (account : address) : Contract unit :=
  has <- gets (hasRole role account) ;;
  if negb has then revert (MissingRole account role) else ret tt.

(** The modifier [onlyRole(role)]: [_checkRole(role, _msgSender()); _;] *)
Definition onlyRole {A} (e : Env) (role : bytes32) (body : Contract A) : Contract A :=
  _checkRole role (msg_sender e) ;; body.

Definition getRoleAdmin (role : bytes32) (s : State) : bytes32 :=
  default DEFAULT_ADMIN_ROLE (_roles_adminRole s !! role).

Definition _grantRole (e : Env) (role : bytes32) (account : address) : Contract unit :=
  has <- gets (hasRole role account) ;;
  if negb has then
    modify (set_roles_members <[(role, account) := true]>) ;;
    emit (RoleGranted role account (msg_sender e))
  else ret tt.

Definition _revokeRole (e : Env) (role : bytes32) (account : address) : Contract unit :=
  has <- gets (hasRole role account) ;;
  if has then
    modify (set_roles_members <[(role, account) := false]>) ;;
    emit (RoleRevoked role account (msg_sender e))
  else ret tt.

Definition grantRole (e : Env) (role : bytes32) (account : address) : Contract unit :=
  admin <- gets (getRoleAdmin role) ;;
  onlyRole e admin (_grantRole e role account).

Definition revokeRole (e : Env) (role : bytes32) (account : address) : Contract unit :=
  admin <- gets (getRoleAdmin role) ;;
  onlyRole e admin (_revokeRole e role account).

Definition renounceRole (e : Env) (role : bytes32) (account : address) : Contract unit :=
  require (account =? msg_sender e) "AccessControl: can only renounce roles for self" ;;
  _revokeRole e role account.

(** ** ERC721.sol *)

Definition _ownerOf (tokenId : uint256) (s : State) : address :=
  default address_0 (_owners s !! tokenId).

Definition _exists (tokenId : uint256) (s : State) : bool :=
  negb (_ownerOf tokenId s =? address_0).

Definition balanceOf (owner : address) : Contract uint256 :=
  require (negb (owner =? address_0)) "ERC721: address zero is not a valid owner" ;;
  gets (fun s => default 0 (_balances s !! owner)).

Definition ownerOf (tokenId : uint256) : Contract address :=
  owner <- gets (_ownerOf tokenId) ;;
  require (negb (owner =? address_0)) "ERC721: invalid token ID" ;;
  ret owner.

Definition _requireMinted (tokenId : uint256) : Contract unit :=
  ex <- gets (_exists tokenId) ;;
  require ex "ERC721: invalid token ID".

Definition getApproved (tokenId : uint256) : Contract address :=
  _requireMinted tokenId ;;
  gets (fun s => default address_0 (_tokenApprovals s !! tokenId)).

Definition isApprovedForAll (owner operator : address) (s : State) : bool :=
  default false (_operatorApprovals s !! (owner, operator)).

(** [spender == owner || isApprovedForAll(owner, spender) ||
     getApproved(tokenId) == spender], evaluated left to right. *)
Definition _isApprovedOrOwner (spender : address) (tokenId : uint256) : Contract bool :=
  owner <- ownerOf tokenId ;;
  if spender =? owner then ret true else
  all <- gets (isApprovedForAll owner spender) ;;
  if all then ret true else
  approved <- getApproved tokenId ;;
  ret (approved =? spender).

Definition _approve (to : address) (tokenId : uint256) : Contract unit :=
  modify (set_tokenApprovals <[tokenId := to]>) ;;
  owner <- ownerOf tokenId ;;
  emit (Approval owner to tokenId).

Definition approve (e : Env) (to : address) (tokenId : uint256) : Contract unit :=
  owner <- ownerOf tokenId ;;
  require (negb (to =? owner)) "ERC721: approval to current owner" ;;
  all <- gets (isApprovedForAll owner (msg_sender e)) ;;
  require ((msg_sender e =? owner) || all)
    "ERC721: approve caller is not token owner or approved for all" ;;
  _approve to tokenId.

Definition _setApprovalForAll (owner operator : address) (approved : bool) : Contract unit :=
  require (negb (owner =? operator)) "ERC721: approve to caller" ;;
  modify (set_operatorApprovals <[(owner, operator) := approved]>) ;;
  emit (ApprovalForAll owner operator approved).

Definition setApprovalForAll (e : Env) (operator : address) (approved : bool) : Contract unit :=
  _setApprovalForAll (msg_sender e) operator approved.

(** [IERC721Receiver.onERC721Received.selector] *)
Definition onERC721Received_selector : bytes4 := 0x150b7a02.

(** The call into the receiving contract, by what it answers. *)
Definition _checkOnERC721Received (e : Env) (from to : address) (tokenId : uint256)
    (data : bytes) : Contract bool :=
  match onERC721Received e to with
  | Some hook =>
      match hook (msg_sender e) from tokenId data with
      | HookReturns retval => ret (retval =? onERC721Received_selector)
      | HookRevertsEmpty => revert (Reason "ERC721: transfer to non ERC721Receiver implementer")
      | HookRevertsWith reason => revert (ReceiverRevert reason)
      end
  | None => ret true
  end.

(** ERC721's own hooks have empty bodies in 4.9 (and with [batchSize = 1],
    the only value passed here, they write nothing in any 4.x release). *)
Definition ERC721_beforeTokenTransfer (from to : address) (firstTokenId batchSize : uint256)
    : Contract unit := ret tt.

Definition _afterTokenTransfer (from to : address) (firstTokenId batchSize : uint256)
    : Contract unit := ret tt.

(** ** ClaudeCodeCertificate.sol: the transfer hook

    [_mint], [_transfer] and [_burn] below call the virtual
    [_beforeTokenTransfer]; the contract overrides it, so this is the body
    they run. *)
Definition _beforeTokenTransfer (from to : address) (tokenId batchSize : uint256)
    : Contract unit :=
  ERC721_beforeTokenTransfer from to tokenId batchSize ;;
  (* Allow minting (from == address(0)) but prevent transfers *)
  require (from =? address_0) "Certificates are non-transferable".

(** ** ERC721.sol, continued *)

(** [unchecked { _balances[a] += 1; }] and [-= 1] *)
Definition balance_add (a : address) (d : Z) (b : gmap address uint256) : gmap address uint256 :=
  <[a := (default 0 (b !! a) + d) mod UINT256_MOD]> b.

Definition _mint (to : address) (tokenId : uint256) : Contract unit :=
  require (negb (to =? address_0)) "ERC721: mint to the zero address" ;;
  ex <- gets (_exists tokenId) ;;
  require (negb ex) "ERC721: token already minted" ;;
  _beforeTokenTransfer address_0 to tokenId 1 ;;
  (* Check that tokenId was not minted by `_beforeTokenTransfer` hook *)
  ex' <- gets (_exists tokenId) ;;
  require (negb ex') "ERC721: token already minted" ;;
  modify (set_balances (balance_add to 1)) ;;
  modify (set_owners <[tokenId := to]>) ;;
  emit (Transfer address_0 to tokenId) ;;
  _afterTokenTransfer address_0 to tokenId 1.

Definition _safeMint_data (e : Env) (to : address) (tokenId : uint256) (data : bytes)
    : Contract unit :=
  _mint to tokenId ;;
  ok <- _checkOnERC721Received e address_0 to tokenId data ;;
  require ok "ERC721: transfer to non ERC721Receiver implementer".

Definition _safeMint (e : Env) (to : address) (tokenId : uint256) : Contract unit :=
  _safeMint_data e to tokenId EmptyString.

Definition _transfer (from to : address) (tokenId : uint256) : Contract unit :=
  owner <- ownerOf tokenId ;;
  require (owner =? from) "ERC721: transfer from incorrect owner" ;;
  require (negb (to =? address_0)) "ERC721: transfer to the zero address" ;;
  _beforeTokenTransfer from to tokenId 1 ;;
  (* Check that tokenId was not transferred by `_beforeTokenTransfer` hook *)
  owner' <- ownerOf tokenId ;;
  require (owner' =? from) "ERC721: transfer from incorrect owner" ;;
  (* Clear approvals from the previous owner *)
  modify (set_tokenApprovals (delete tokenId)) ;;
  modify (set_balances (balance_add from (-1))) ;;
  modify (set_balances (balance_add to 1)) ;;
  modify (set_owners <[tokenId := to]>) ;;
  emit (Transfer from to tokenId) ;;
  _afterTokenTransfer from to tokenId 1.

Definition transferFrom (e : Env) (from to : address) (tokenId : uint256) : Contract unit :=
  allowed <- _isApprovedOrOwner (msg_sender e) tokenId ;;
  require allowed "ERC721: caller is not token owner or approved" ;;
  _transfer from to tokenId.

Definition _safeTransfer (e : Env) (from to : address) (tokenId : uint256) (data : bytes)
    : Contract unit :=
  _transfer from to tokenId ;;
  ok <- _checkOnERC721Received e from to tokenId data ;;
  require ok "ERC721: transfer to non ERC721Receiver implementer".

Definition safeTransferFrom_data (e : Env) (from to : address) (tokenId : uint256)
    (data : bytes) : Contract unit :=
  allowed <- _isApprovedOrOwner (msg_sender e) tokenId ;;
  require allowed "ERC721: caller is not token owner or approved" ;;
  _safeTransfer e from to tokenId data.

Definition safeTransferFrom (e : Env) (from to : address) (tokenId : uint256) : Contract unit :=
  safeTransferFrom_data e from to tokenId EmptyString.


(** ** ERC721URIStorage.sol *)

Definition _setTokenURI (tokenId : uint256) (_tokenURI : string) : Contract unit :=
  ex <- gets (_exists tokenId) ;;
  require ex "ERC721URIStorage: URI set of nonexistent token" ;;
  modify (set_tokenURIs <[tokenId := _tokenURI]>) ;;
  emit (MetadataUpdate tokenId).


(** ** ClaudeCodeCertificate.sol *)

Definition constructor (e : Env) : Contract unit :=
  _grantRole e DEFAULT_ADMIN_ROLE (msg_sender e) ;;
  _grantRole e ISSUER_ROLE (msg_sender e).

(** [participants[a]] and [certificates[id]] as reads of storage *)
Definition participants_at (a : address) (s : State) : Participant :=
  default Participant_zero (participants s !! a).

Definition certificates_at (tokenId : uint256) (s : State) : Certificate :=
  default Certificate_zero (certificates s !! tokenId).

Definition registerParticipant (e : Env) (participant : address) (name : string)
    : Contract unit :=
  onlyRole e ISSUER_ROLE (
    p <- gets (participants_at participant) ;;
    require (negb (isRegistered p)) "Participant already registered" ;;
    require (nonempty name) "Name cannot be empty" ;;
    modify (set_participants
      <[participant := mkParticipant name (block_timestamp e) true]>) ;;
    emit (ParticipantRegistered participant name (block_timestamp e))).

Definition issueCertificate (e : Env) (recipient : address)
    (tokenURI contentHash cohort : string) : Contract uint256 :=
  onlyRole e ISSUER_ROLE (
    p <- gets (participants_at recipient) ;;
    require (isRegistered p) "Recipient not registered" ;;
    require (nonempty tokenURI) "Token URI cannot be empty" ;;
    require (nonempty contentHash) "Content hash cannot be empty" ;;
    Counters.increment ;;
    tokenId <- Counters.current ;;
    _safeMint e recipient tokenId ;;
    _setTokenURI tokenId tokenURI ;;
    modify (set_certificates
      <[tokenId := mkCertificate recipient contentHash cohort (block_timestamp e) false]>) ;;
    modify (set_participantCertificates
      (fun m => <[recipient := default [] (m !! recipient) ++ [tokenId]]> m)) ;;
    emit (CertificateIssued tokenId recipient cohort contentHash (block_timestamp e)) ;;
    emit (Locked tokenId) ;;
    ret tokenId).

(** [certificates[tokenId].isRevoked = true;] *)
Definition mark_revoked (c : Certificate) : Certificate :=
  mkCertificate (recipient c) (contentHash c) (cohort c) (issuedAt c) true.

Definition revokeCertificate (e : Env) (tokenId : uint256) : Contract unit :=
  onlyRole e ISSUER_ROLE (
    ex <- gets (_exists tokenId) ;;
    require ex "Certificate does not exist" ;;
    c <- gets (certificates_at tokenId) ;;
    require (negb (isRevoked c)) "Certificate already revoked" ;;
    modify (set_certificates
      (fun m => <[tokenId := mark_revoked (default Certificate_zero (m !! tokenId))]> m)) ;;
    emit (CertificateRevoked tokenId (block_timestamp e))).

Definition verifyCertificate (tokenId : uint256)
    : Contract (bool * address * string * string * uint256) :=
  ex <- gets (_exists tokenId) ;;
  if negb ex then ret (false, address_0, EmptyString, EmptyString, 0) else
  cert <- gets (certificates_at tokenId) ;;
  ret (negb (isRevoked cert), recipient cert, contentHash cert, cohort cert, issuedAt cert).

Definition getParticipantCertificates (participant : address) : Contract (list uint256) :=
  gets (fun s => default [] (_participantCertificates s !! participant)).

Definition locked (tokenId : uint256) : Contract bool :=
  ex <- gets (_exists tokenId) ;;
  require ex "Token does not exist" ;;
  ret true.

(** ** Transactions

    The state-changing external functions of the deployed contract, its own
    and the inherited ones. *)

Inductive Call :=
| RegisterParticipant (participant : address) (name : string)
| IssueCertificate (recipient : address) (tokenURI contentHash cohort : string)
| RevokeCertificate (tokenId : uint256)
| Approve (to : address) (tokenId : uint256)
| SetApprovalForAll (operator : address) (approved : bool)
| TransferFrom (from to : address) (tokenId : uint256)
| SafeTransferFrom (from to : address) (tokenId : uint256)
| SafeTransferFromData (from to : address) (tokenId : uint256) (data : bytes)
| GrantRole (role : bytes32) (account : address)
| RevokeRole (role : bytes32) (account : address)
| RenounceRole (role : bytes32) (account : address).

Inductive Return :=
| RetUnit
| RetUint (n : uint256).

Definition returning {A} (f : A -> Return) (m : Contract A) : Contract Return :=
  a <- m ;; ret (f a).

Definition dispatch (e : Env) (c : Call) : Contract Return :=
  match c with
  | RegisterParticipant participant name =>
      returning (fun _ => RetUnit) (registerParticipant e participant name)
  | IssueCertificate recipient tokenURI contentHash cohort =>
      returning RetUint (issueCertificate e recipient tokenURI contentHash cohort)
  | RevokeCertificate tokenId =>
      returning (fun _ => RetUnit) (revokeCertificate e tokenId)
  | Approve to tokenId => returning (fun _ => RetUnit) (approve e to tokenId)
  | SetApprovalForAll operator approved =>
      returning (fun _ => RetUnit) (setApprovalForAll e operator approved)
  | TransferFrom from to tokenId =>
      returning (fun _ => RetUnit) (transferFrom e from to tokenId)
  | SafeTransferFrom from to tokenId =>
      returning (fun _ => RetUnit) (safeTransferFrom e from to tokenId)
  | SafeTransferFromData from to tokenId data =>
      returning (fun _ => RetUnit) (safeTransferFrom_data e from to tokenId data)
  | GrantRole role account => returning (fun _ => RetUnit) (grantRole e role account)
  | RevokeRole role account => returning (fun _ => RetUnit) (revokeRole e role account)
  | RenounceRole role account => returning (fun _ => RetUnit) (renounceRole e role account)
  end.

(** One transaction: the writes of a call that reverts are discarded. *)
Definition transact {A} (m : Contract A) (s : State) : Result A * State :=
  match m s with
  | (Ok a, s') => (Ok a, s')
  | (Revert err, _) => (Revert err, s)
  end.

Definition exec (e : Env) (c : Call) (s : State) : Result Return * State :=
  transact (dispatch e c) s.

(** The storage right after deployment by [msg_sender e]. *)
Definition deploy (e : Env) : State := snd (transact (constructor e) State_empty).

(** ** The error names of the specification

    Each revert of the code, under the name the specification gives to it;
    [LibraryError] collects the reverts of the ERC-721 library itself, which
    the specification does not name. *)

Inductive ErrorKind :=
| InvalidArgument
| AlreadyRegistered
| NotRegistered
| NotFound
| AlreadyRevoked
| NonTransferable
| Unauthorized
| LibraryError.

Definition kind_of_reason (msg : string) : ErrorKind :=
  if String.eqb msg "Participant already registered" then AlreadyRegistered
  else if String.eqb msg "Name cannot be empty" then InvalidArgument
  else if String.eqb msg "Token URI cannot be empty" then InvalidArgument
  else if String.eqb msg "Content hash cannot be empty" then InvalidArgument
  else if String.eqb msg "Recipient not registered" then NotRegistered
  else if String.eqb msg "Certificate does not exist" then NotFound
  else if String.eqb msg "Token does not exist" then NotFound
  else if String.eqb msg "Certificate already revoked" then AlreadyRevoked
  else if String.eqb msg "Certificates are non-transferable" then NonTransferable
  else LibraryError.

Definition kind_of (err : Error) : ErrorKind :=
  match err with
  | Reason msg => kind_of_reason msg
  | MissingRole _ _ => Unauthorized
  | ReceiverRevert _ => LibraryError
  end.

(** [fails_with k r]: the call reverted, with an error the specification calls [k]. *)
Definition fails_with {A} (k : ErrorKind) (r : Result A) : Prop :=
  match r with
  | Ok _ => False
  | Revert err => kind_of err = k
  end.

(** ** Histories

    A history lists the certificates handed out so far, oldest first, as
    pairs of the recipient and the id that [issueCertificate] returned. *)

Definition issued (c : Call) (r : Result Return) : list (address * uint256) :=
  match c, r with
  | IssueCertificate recipient _ _ _, Ok (RetUint tokenId) => [(recipient, tokenId)]
  | _, _ => []
  end.

Definition issued_ids (h : list (address * uint256)) : list uint256 := h.*2.


(** Run a list of transactions, oldest first, and collect the history. *)
Fixpoint run (txs : list (Env * Call)) (h : list (address * uint256)) (s : State)
    : list (address * uint256) * State :=
  match txs with
  | [] => (h, s)
  | (e, c) :: rest =>
      let '(r, s') := exec e c s in
      run rest (h ++ issued c r) s'
  end.

(** [reaches e0 h s]: after deployment in [e0], some sequence of
    transactions leads to storage [s], with [h] issued on the way. *)
Inductive reaches (e0 : Env) : list (address * uint256) -> State -> Prop :=
| reaches_deploy : reaches e0 [] (deploy e0)
| reaches_call h s e c r s' :
    reaches e0 h s -> exec e c s = (r, s') -> reaches e0 (h ++ issued c r) s'.

(** ** A concrete scenario, used to exercise the definitions *)

Module Scenario.

Definition deployer : address := 0xD0.
Definition alice : address := 0xA1.
Definition bob : address := 0xB0.

(** No address has code: every recipient is an externally owned account. *)
Definition env (sender : address) (now : uint256) : Env :=
  mkEnv sender now (fun _ => None).

Definition s0 : State := deploy (env deployer 1700000000).

Definition s1 : State :=
  snd (exec (env deployer 1700000100) (RegisterParticipant alice "Alice") s0).

Definition issue1 : Call :=
  IssueCertificate alice "ipfs://X" "sha256:deadbeef" "2024-Q1".

Definition s2 : State := snd (exec (env deployer 1700000200) issue1 s1).

Definition s3 : State := snd (exec (env deployer 1700000300) (RevokeCertificate 1) s2).

Definition e0 : Env := env deployer 1700000000.

Definition txs2 : list (Env * Call) :=
  [(env deployer 1700000100, RegisterParticipant alice "Alice");
   (env deployer 1700000200, issue1)].

Definition txs3 : list (Env * Call) :=
  txs2 ++ [(env deployer 1700000300, RevokeCertificate 1)].

(** A contract whose receiver hook reverts, and an environment that has it. *)
Definition vault : address := 0xC0.

Definition env_vault (sender : address) (now : uint256) : Env :=
  mkEnv sender now
    (fun a => if a =? vault then Some (fun _ _ _ _ => HookRevertsEmpty) else None).

Definition sv : State :=
  snd (exec (env deployer 1700000100) (RegisterParticipant vault "Vault") s0).

End Scenario.

(** [later s s']: some sequence of transactions leads from [s] to [s']. *)
Inductive later : State -> State -> Prop :=
| later_now s : later s s
| later_call s s1 e c r s2 : later s s1 -> exec e c s1 = (r, s2) -> later s s2.

(** ** What a successful call writes

    The storage after each kind of successful call, written out; the lemmas
    below prove that the code commits exactly these and nothing else. *)

Definition log (ev : Event) : State -> State := set_events (fun l => l ++ [ev]).

Definition registered (e : Env) (participant : address) (name : string) (s : State) : State :=
  log (ParticipantRegistered participant name (block_timestamp e))
    (set_participants <[participant := mkParticipant name (block_timestamp e) true]> s).

Definition minted (e : Env) (recipient : address) (tokenURI contentHash cohort : string)
    (tokenId : uint256) (s : State) : State :=
  log (Locked tokenId)
  (log (CertificateIssued tokenId recipient cohort contentHash (block_timestamp e))
  (set_participantCertificates
     (fun m => <[recipient := default [] (m !! recipient) ++ [tokenId]]> m)
  (set_certificates
     <[tokenId := mkCertificate recipient contentHash cohort (block_timestamp e) false]>
  (log (MetadataUpdate tokenId)
  (set_tokenURIs <[tokenId := tokenURI]>
  (log (Transfer address_0 recipient tokenId)
  (set_owners <[tokenId := recipient]>
  (set_balances (balance_add recipient 1)
  (set_tokenIdCounter (fun _ => tokenId) s))))))))).

Definition revoked (e : Env) (tokenId : uint256) (s : State) : State :=
  log (CertificateRevoked tokenId (block_timestamp e))
    (set_certificates
       (fun m => <[tokenId := mark_revoked (default Certificate_zero (m !! tokenId))]> m) s).

Definition approved_for (to : address) (tokenId : uint256) (s : State) : State :=
  log (Approval (_ownerOf tokenId s) to tokenId) (set_tokenApprovals <[tokenId := to]> s).

Definition operator_set (owner operator : address) (approved : bool) (s : State) : State :=
  log (ApprovalForAll owner operator approved)
    (set_operatorApprovals <[(owner, operator) := approved]> s).

Definition role_granted (e : Env) (role : bytes32) (account : address) (s : State) : State :=
  if hasRole role account s then s
  else log (RoleGranted role account (msg_sender e))
         (set_roles_members <[(role, account) := true]> s).

Definition role_revoked (e : Env) (role : bytes32) (account : address) (s : State) : State :=
  if hasRole role account s
  then log (RoleRevoked role account (msg_sender e))
         (set_roles_members <[(role, account) := false]> s)
  else s.

(** What the receiver check answers; it does not read storage. *)
Definition receiver_result (e : Env) (from to : address) (tokenId : uint256) (data : bytes)
    : Result bool :=
  fst (_checkOnERC721Received e from to tokenId data State_empty).

(** The value [_isApprovedOrOwner] computes for a token that exists. *)
Definition is_approved_or_owner (spender : address) (tokenId : uint256) (s : State) : bool :=
  (spender =? _ownerOf tokenId s)
  || isApprovedForAll (_ownerOf tokenId s) spender s
  || (default address_0 (_tokenApprovals s !! tokenId) =? spender).

(** The revert a transfer call meets first, in the order the code checks. *)
Definition transfer_error (e : Env) (from to : address) (tokenId : uint256) (s : State)
    : Error :=
  if negb (_exists tokenId s) then Reason "ERC721: invalid token ID"
  else if negb (is_approved_or_owner (msg_sender e) tokenId s)
  then Reason "ERC721: caller is not token owner or approved"
  else if negb (_ownerOf tokenId s =? from) then Reason "ERC721: transfer from incorrect owner"
  else if to =? address_0 then Reason "ERC721: transfer to the zero address"
  else Reason "Certificates are non-transferable".

(** The receiver check of [_safeMint] passes: the recipient has no code, or
    its hook returns the selector. *)
Definition receiver_accepts (e : Env) (from to : address) (tokenId : uint256) (data : bytes)
    : bool :=
  match onERC721Received e to with
  | Some hook =>
      match hook (msg_sender e) from tokenId data with
      | HookReturns retval => retval =? onERC721Received_selector
      | _ => false
      end
  | None => true
  end.

(** [effect e s c v s']: call [c] in environment [e] on storage [s] may
    succeed, returning [v] and committing [s'].  The transfer functions have
    no rule. *)
Inductive effect (e : Env) (s : State) : Call -> Return -> State -> Prop :=
| effect_register participant name :
    hasRole ISSUER_ROLE (msg_sender e) s = true ->
    isRegistered (participants_at participant s) = false ->
    nonempty name = true ->
    effect e s (RegisterParticipant participant name) RetUnit
      (registered e participant name s)
| effect_issue recipient tokenURI contentHash cohort tokenId :
    hasRole ISSUER_ROLE (msg_sender e) s = true ->
    isRegistered (participants_at recipient s) = true ->
    nonempty tokenURI = true ->
    nonempty contentHash = true ->
    tokenId = (_tokenIdCounter s + 1) mod UINT256_MOD ->
    recipient ≠ address_0 ->
    _exists tokenId s = false ->
    receiver_accepts e address_0 recipient tokenId EmptyString = true ->
    effect e s (IssueCertificate recipient tokenURI contentHash cohort) (RetUint tokenId)
      (minted e recipient tokenURI contentHash cohort tokenId s)
| effect_revoke tokenId :
    hasRole ISSUER_ROLE (msg_sender e) s = true ->
    _exists tokenId s = true ->
    isRevoked (certificates_at tokenId s) = false ->
    effect e s (RevokeCertificate tokenId) RetUnit (revoked e tokenId s)
| effect_approve to tokenId :
    _exists tokenId s = true ->
    to ≠ _ownerOf tokenId s ->
    (msg_sender e =? _ownerOf tokenId s)
      || isApprovedForAll (_ownerOf tokenId s) (msg_sender e) s = true ->
    effect e s (Approve to tokenId) RetUnit (approved_for to tokenId s)
| effect_setApprovalForAll operator approved :
    msg_sender e ≠ operator ->
    effect e s (SetApprovalForAll operator approved) RetUnit
      (operator_set (msg_sender e) operator approved s)
| effect_grantRole role account :
    hasRole (getRoleAdmin role s) (msg_sender e) s = true ->
    effect e s (GrantRole role account) RetUnit (role_granted e role account s)
| effect_revokeRole role account :
    hasRole (getRoleAdmin role s) (msg_sender e) s = true ->
    effect e s (RevokeRole role account) RetUnit (role_revoked e role account s)
| effect_renounceRole role account :
    account = msg_sender e ->
    effect e s (RenounceRole role account) RetUnit (role_revoked e role account s).

(** [c] is one of the three transfer entry points, called on these arguments. *)
Definition is_transfer_of (from to : address) (tokenId : uint256) (c : Call) : Prop :=
  c = TransferFrom from to tokenId \/
  c = SafeTransferFrom from to tokenId \/
  exists data, c = SafeTransferFromData from to tokenId data.

(** ** Further read-only functions

    [tokenURI] of ERC721URIStorage with the functions it calls, and the
    projections of the event log used to state what observers can read off
    it. *)

(** [Strings.toString(uint256)]: the decimal digits. *)
Definition toString (value : uint256) : string := pretty (Z.to_N value).

(** ERC721's [_baseURI], which the contract does not override. *)
Definition _baseURI : string := EmptyString.

(** ERC721's own [tokenURI], reached through [super.tokenURI]. *)
Definition ERC721_tokenURI (tokenId : uint256) : Contract string :=
  _requireMinted tokenId ;;
  let baseURI := _baseURI in
  ret (if nonempty baseURI then baseURI +:+ toString tokenId else EmptyString).

Definition tokenURI (tokenId : uint256) : Contract string :=
  _requireMinted tokenId ;;
  _tokenURI <- gets (fun s => default EmptyString (_tokenURIs s !! tokenId)) ;;
  let base := _baseURI in
  (* If there is no base URI, return the token URI. *)
  if negb (nonempty base) then ret _tokenURI
  (* If both are set, concatenate the baseURI and tokenURI. *)
  else if nonempty _tokenURI then ret (base +:+ _tokenURI)
  else ERC721_tokenURI tokenId.




(** The [(participant, name, timestamp)] triples of the
    [ParticipantRegistered] events of a log. *)
Definition registered_log (l : list Event) : list (address * (string * uint256)) :=
  omap (fun ev => match ev with
                  | ParticipantRegistered a nm ts => Some (a, (nm, ts))
                  | _ => None
                  end) l.

(** The events a successful call appends to the log. *)
Definition emitted (e : Env) (s : State) (c : Call) (v : Return) : list Event :=
  match c, v with
  | RegisterParticipant a n, _ => [ParticipantRegistered a n (block_timestamp e)]
  | IssueCertificate r uri h co, RetUint t =>
      [Transfer address_0 r t; MetadataUpdate t;
       CertificateIssued t r co h (block_timestamp e); Locked t]
  | RevokeCertificate t, _ => [CertificateRevoked t (block_timestamp e)]
  | Approve to t, _ => [Approval (_ownerOf t s) to t]
  | SetApprovalForAll op b, _ => [ApprovalForAll (msg_sender e) op b]
  | GrantRole role a, _ =>
      if hasRole role a s then [] else [RoleGranted role a (msg_sender e)]
  | RevokeRole role a, _ | RenounceRole role a, _ =>
      if hasRole role a s then [RoleRevoked role a (msg_sender e)] else []
  | _, _ => []
  end.

(** * The client code

    The pure parts of the browser client and of the command-line script.
    JavaScript strings are lists of characters; what the code obtains from
    the network or the wallet (a digest, a response, a receipt) is an
    argument of the function that uses it. *)

(** ** String methods of JavaScript used by the client *)

Module JS.

(** A string literal. *)
Definition str (s : string) : list ascii := String.list_ascii_of_string s.

(** The position that an integer argument of [slice] denotes: a negative
    one counts from the end, and both ends are clamped to the string. *)
Definition rel_index (len : nat) (i : Z) : nat :=
  if i <? 0 then Z.to_nat (Z.max (Z.of_nat len + i) 0)
  else Z.to_nat (Z.min i (Z.of_nat len)).

(** [s.slice(start, end)] *)
Definition slice (s : list ascii) (start end_ : Z) : list ascii :=
  let from := rel_index (length s) start in
  let to := rel_index (length s) end_ in
  take (to - from) (drop from s).

(** [s.slice(start)] *)
Definition slice_from (s : list ascii) (start : Z) : list ascii :=
  drop (rel_index (length s) start) s.

(** [s.startsWith(p)] *)
Fixpoint startsWith (s p : list ascii) : bool :=
  match p, s with
  | [], _ => true
  | c :: p', d :: s' => bool_decide (c = d) && startsWith s' p'
  | _ :: _, [] => false
  end.

(** [s.replace(pat, rep)] for a string pattern: the first occurrence only.
    ([rep] is taken literally; the client's replacement has no [$].) *)
Fixpoint replace (s pat rep : list ascii) : list ascii :=
  if startsWith s pat then rep ++ drop (length pat) s
  else match s with
       | [] => []
       | c :: s' => c :: replace s' pat rep
       end.

(** [s.padStart(targetLength, padString)] *)
Definition padStart (s : list ascii) (targetLength : nat) (padString : list ascii)
    : list ascii :=
  let fillLen := (targetLength - length s)%nat in
  match padString with
  | [] => s
  | _ => take fillLen (concat (replicate fillLen padString)) ++ s
  end.

(** The digit of [n.toString(16)] for a value below 16. *)
Definition hex_digit (d : N) : ascii :=
  nth (N.to_nat d) (str "0123456789abcdef") "0"%char.

Fixpoint toString16_go (fuel : nat) (n : N) (acc : list ascii) : list ascii :=
  match fuel with
  | O => acc
  | S fuel' =>
      let acc' := hex_digit (n mod 16) :: acc in
      if (n / 16 =? 0)%N then acc' else toString16_go fuel' (n / 16)%N acc'
  end.

(** [n.toString(16)] for a non-negative integer. *)
Definition toString16 (n : N) : list ascii :=
  toString16_go (S (N.size_nat n)) n [].


End JS.

(** ** utils/ipfs.ts *)

Module Ipfs.



(** [hashArray.map((b) => b.toString(16).padStart(2, "0")).join("")] *)
Definition hashHex (hashArray : list Byte.byte) : list ascii :=
  concat (map (fun b => JS.padStart (JS.toString16 (Byte.to_N b)) 2 (JS.str "0")) hashArray).




(** Reading a hexadecimal digit, and a string of two-digit bytes, back:
    the inverse that [hashHex] is measured against. *)
Definition unhex_digit (c : ascii) : option N :=
  let n := N_of_ascii c in
  if (48 <=? n)%N && (n <=? 57)%N then Some (n - 48)%N
  else if (97 <=? n)%N && (n <=? 102)%N then Some (n - 87)%N
  else None.

Fixpoint unhex (fuel : nat) (s : list ascii) : option (list Byte.byte) :=
  match fuel, s with
  | _, [] => Some []
  | S fuel', c1 :: c2 :: s' =>
      match unhex_digit c1, unhex_digit c2, unhex fuel' s' with
      | Some h, Some l, Some bs =>
          match Byte.of_N (16 * h + l) with
          | Some b => Some (b :: bs)
          | None => None
          end
      | _, _, _ => None
      end
  | _, _ => None
  end.

(** A string as the contract receives it (the characters here are bytes). *)
Definition to_solidity (s : list ascii) : string := String.string_of_list_ascii s.

End Ipfs.

(** ** hooks/useWallet.ts and components/ConnectWallet.tsx: address display *)

Module Wallet.

(** [formatAddress(address, prefixLength, suffixLength)] of useWallet.ts,
    for integer lengths. *)
Definition formatAddress (address : list ascii) (prefixLength suffixLength : Z)
    : list ascii :=
  if Z.of_nat (length address) <=? prefixLength + suffixLength then address
  else JS.slice address 0 prefixLength ++ JS.str "..."
       ++ JS.slice_from address (- suffixLength).

(** The defaults [prefixLength = 6, suffixLength = 4]. *)
Definition formatAddress_default (address : list ascii) : list ascii :=
  formatAddress address 6 4.

(** The [formatAddress] local to ConnectWallet.tsx. *)
Definition ConnectWallet_formatAddress (addr : list ascii) : list ascii :=
  JS.slice addr 0 6 ++ JS.str "..." ++ JS.slice_from addr (-4).

End Wallet.

(** ** components/CertificateManager.tsx: the gateway address *)

Module Manager.

Definition ipfsToHttps (uri : list ascii) : list ascii :=
  if JS.startsWith uri (JS.str "ipfs://")
  then JS.replace uri (JS.str "ipfs://") (JS.str "https://ipfs.io/ipfs/")
  else uri.

End Manager.

(** ** hooks/useContract.ts: the state of a submitted transaction *)

Module Tx.

Record TransactionState := mkTxState {
  isPending : bool;
  isConfirming : bool;
  isSuccess : bool;
  error : option string;
  hash : option string
}.

Definition initialTxState : TransactionState :=
  mkTxState false false false None None.






End Tx.

(** ** scripts/interact.js *)

Module Interact.

(** The environment variables the script reads; [None] is [undefined]. *)
Record ProcessEnv := mkProcessEnv {
  CMD : option string;
  ADDR : option string;
  NAME : option string;
  URI : option string;
  HASH : option string;
  COHORT : option string;
  TOKEN_ID : option string;
  env_CONTRACT_ADDRESS : option string
}.

(** [!v] for an environment variable: undefined or the empty string. *)
Definition not_ (v : option string) : bool :=
  match v with
  | None => true
  | Some s => negb (nonempty s)
  end.

(** [process.env.CONTRACT_ADDRESS || ""] *)
Definition CONTRACT_ADDRESS (env : ProcessEnv) : string :=
  if not_ (env_CONTRACT_ADDRESS env) then EmptyString
  else default EmptyString (env_CONTRACT_ADDRESS env).

(** The contract functions the script calls, with the strings it passes. *)
Inductive Request :=
| get_ISSUER_ROLE
| do_grantRole_ISSUER_ROLE (issuerAddress : string)
| do_registerParticipant (participantAddress name : string)
| do_issueCertificate (recipientAddress tokenURI contentHash cohort : string)
| do_verifyCertificate (tokenId : string)
| do_getParticipantCertificates (participantAddress : string)
| do_revokeCertificate (tokenId : string)
| do_hasRole_ISSUER_ROLE (account : string).

(** The strings a call passes to the contract. *)
Definition arguments (r : Request) : list string :=
  match r with
  | get_ISSUER_ROLE => []
  | do_grantRole_ISSUER_ROLE a => [a]
  | do_registerParticipant a n => [a; n]
  | do_issueCertificate a uri h co => [a; uri; h; co]
  | do_verifyCertificate t => [t]
  | do_getParticipantCertificates a => [a]
  | do_revokeCertificate t => [t]
  | do_hasRole_ISSUER_ROLE a => [a]
  end.

(** What [main] does: throw before reaching the contract, go on to call it
    (the calls it makes if each one returns), or print the usage text. *)
Inductive Outcome :=
| Throws (message : string)
| Calls (requests : list Request)
| PrintsUsage.

(** [getContract()] followed by the calls [requests]. *)
Definition with_contract (env : ProcessEnv) (requests : list Request) : Outcome :=
  if negb (nonempty (CONTRACT_ADDRESS env))
  then Throws "CONTRACT_ADDRESS environment variable not set. Add it to .env file."
  else Calls requests.

(** The value of a variable that was checked to be there. *)
Definition val (v : option string) : string := default EmptyString v.

Definition main (env : ProcessEnv) : Outcome :=
  match CMD env with
  | None => PrintsUsage
  | Some command =>
      if String.eqb command "add-issuer" then
        if not_ (ADDR env) then Throws "ADDR is required"
        else with_contract env
               [get_ISSUER_ROLE; do_grantRole_ISSUER_ROLE (val (ADDR env))]
      else if String.eqb command "register" then
        if not_ (ADDR env) || not_ (NAME env) then Throws "ADDR and NAME are required"
        else with_contract env
               [do_registerParticipant (val (ADDR env)) (val (NAME env))]
      else if String.eqb command "issue" then
        if not_ (ADDR env) || not_ (URI env) || not_ (HASH env) || not_ (COHORT env)
        then Throws "ADDR, URI, HASH, and COHORT are required"
        else with_contract env
               [do_issueCertificate (val (ADDR env)) (val (URI env)) (val (HASH env))
                  (val (COHORT env))]
      else if String.eqb command "verify" then
        if not_ (TOKEN_ID env) then Throws "TOKEN_ID is required"
        else with_contract env [do_verifyCertificate (val (TOKEN_ID env))]
      else if String.eqb command "certificates" then
        if not_ (ADDR env) then Throws "ADDR is required"
        else with_contract env [do_getParticipantCertificates (val (ADDR env))]
      else if String.eqb command "revoke" then
        if not_ (TOKEN_ID env) then Throws "TOKEN_ID is required"
        else with_contract env [do_revokeCertificate (val (TOKEN_ID env))]
      else if String.eqb command "check-issuer" then
        if not_ (ADDR env) then Throws "ADDR is required"
        else with_contract env
               [get_ISSUER_ROLE; do_hasRole_ISSUER_ROLE (val (ADDR env))]
      else PrintsUsage
  end.



End Interact.

(** ** context/WalletContext.tsx and config/chain.ts: the chain check *)

Module Chain.

Definition chainId : Z := 420420422.
Definition chainIdHex : string := "0x190F1B46".

(** White space that [parseInt] skips, among the characters below 256. *)
Definition is_whitespace (c : ascii) : bool :=
  let n := N_of_ascii c in
  ((9 <=? n)%N && (n <=? 13)%N) || (n =? 32)%N || (n =? 160)%N.

Fixpoint trim_start (s : list ascii) : list ascii :=
  match s with
  | c :: s' => if is_whitespace c then trim_start s' else s
  | [] => []
  end.

Definition hex_value (c : ascii) : option Z :=
  let n := Z.of_N (N_of_ascii c) in
  if (48 <=? n) && (n <=? 57) then Some (n - 48)
  else if (97 <=? n) && (n <=? 102) then Some (n - 87)
  else if (65 <=? n) && (n <=? 70) then Some (n - 55)
  else None.

(** The value of the longest run of hexadecimal digits at the start of [s];
    [acc] is [None] while no digit has been read. *)
Fixpoint digits (s : list ascii) (acc : option Z) : option Z :=
  match s with
  | c :: s' =>
      match hex_value c with
      | Some d => digits s' (Some (16 * default 0 acc + d))
      | None => acc
      end
  | [] => acc
  end.

(** [parseInt(s, 16)] as an integer, [None] for [NaN].  The value is exact
    here; JavaScript rounds it to a double beyond [2^53]. *)
Definition parseInt16 (s : list ascii) : option Z :=
  let s1 := trim_start s in
  let '(sign, s2) :=
    match s1 with
    | c :: r => if bool_decide (c = "-"%char) then (-1, r)
                else if bool_decide (c = "+"%char) then (1, r)
                else (1, s1)
    | [] => (1, s1)
    end in
  let s3 :=
    match s2 with
    | c0 :: cx :: r =>
        if bool_decide (c0 = "0"%char)
           && (bool_decide (cx = "x"%char) || bool_decide (cx = "X"%char))
        then r else s2
    | _ => s2
    end in
  Z.mul sign <$> digits s3 None.

(** A request to the wallet's provider. *)
Inductive RpcRequest :=
| eth_chainId
| wallet_switchEthereumChain (chainId : string)
| wallet_addEthereumChain (chainId : string).

(** How the provider answers: what [eth_chainId] resolves to, and for the
    other two requests the error they reject with, if any, given by its
    [code] ([None]: no code). *)
Record Provider := mkProvider {
  answer_chainId : list ascii;
  reject_switch : option (option Z);
  reject_add : option (option Z)
}.

(** [ensureCorrectChain]: the requests made, and the error thrown, if any. *)
Definition ensureCorrectChain (p : Provider) : list RpcRequest * option (option Z) :=
  let currentChainId := parseInt16 (answer_chainId p) in
  if bool_decide (currentChainId ≠ Some chainId) then
    match reject_switch p with
    | None => ([eth_chainId; wallet_switchEthereumChain chainIdHex], None)
    | Some switchError =>
        (* Chain not added (error code 4902), try to add it *)
        if bool_decide (switchError = Some 4902) then
          ([eth_chainId; wallet_switchEthereumChain chainIdHex;
            wallet_addEthereumChain chainIdHex], reject_add p)
        else
          ([eth_chainId; wallet_switchEthereumChain chainIdHex], Some switchError)
    end
  else ([eth_chainId], None).

End Chain.

(** * Proofs *)

(** ** Running the code: one equation per function *)

Ltac monad := unfold bind, ret, gets, modify, require, revert, emit; cbn.

Lemma _checkOnERC721Received_eq e from to tokenId data s :
  _checkOnERC721Received e from to tokenId data s =
    (receiver_result e from to tokenId data, s).
Proof.
  unfold receiver_result, _checkOnERC721Received.
  destruct (onERC721Received e to) as [hook|]; [|done].
  destruct (hook _ _ _ _); done.
Qed.

Lemma receiver_accepts_result e from to tokenId data :
  receiver_accepts e from to tokenId data = true <->
  receiver_result e from to tokenId data = Ok true.
Proof.
  unfold receiver_accepts, receiver_result, _checkOnERC721Received.
  destruct (onERC721Received e to) as [hook|]; [|done].
  destruct (hook _ _ _ _); cbn; try done.
  split; [by intros ->|by intros [= ->]].
Qed.

Lemma ownerOf_eq tokenId s :
  ownerOf tokenId s =
    if _exists tokenId s then (Ok (_ownerOf tokenId s), s)
    else (Revert (Reason "ERC721: invalid token ID"), s).
Proof.
  unfold ownerOf, _exists. monad.
  by destruct (_ownerOf tokenId s =? address_0).
Qed.

Lemma _isApprovedOrOwner_eq spender tokenId s :
  _isApprovedOrOwner spender tokenId s =
    if _exists tokenId s then (Ok (is_approved_or_owner spender tokenId s), s)
    else (Revert (Reason "ERC721: invalid token ID"), s).
Proof.
  unfold _isApprovedOrOwner, is_approved_or_owner, getApproved, _requireMinted.
  unfold bind at 1. rewrite ownerOf_eq.
  destruct (_exists tokenId s) eqn:Hex; [|done].
  monad.
  destruct (spender =? _ownerOf tokenId s); cbn; [done|].
  destruct (isApprovedForAll _ _ s); cbn; [done|].
  by rewrite Hex.
Qed.

Lemma _mint_eq to tokenId s :
  _mint to tokenId s =
    if to =? address_0 then (Revert (Reason "ERC721: mint to the zero address"), s)
    else if _exists tokenId s then (Revert (Reason "ERC721: token already minted"), s)
    else (Ok tt, log (Transfer address_0 to tokenId)
                   (set_owners <[tokenId := to]> (set_balances (balance_add to 1) s))).
Proof.
  unfold _mint, _beforeTokenTransfer, ERC721_beforeTokenTransfer, _afterTokenTransfer.
  monad.
  destruct (to =? address_0); cbn; [done|].
  destruct (_exists tokenId s) eqn:Hex; cbn; [done|].
  by rewrite Hex.
Qed.

(** [_transfer] reverts on every input: past its own checks [from] is the
    owner of an existing token, hence not zero, and the hook refuses. *)
Lemma _transfer_eq from to tokenId s :
  _transfer from to tokenId s =
    (Revert
       (if negb (_exists tokenId s) then Reason "ERC721: invalid token ID"
        else if negb (_ownerOf tokenId s =? from)
        then Reason "ERC721: transfer from incorrect owner"
        else if to =? address_0 then Reason "ERC721: transfer to the zero address"
        else Reason "Certificates are non-transferable"), s).
Proof.
  unfold _transfer, _beforeTokenTransfer, ERC721_beforeTokenTransfer.
  unfold bind at 1. rewrite ownerOf_eq.
  destruct (_exists tokenId s) eqn:Hex; [|done].
  monad.
  destruct (_ownerOf tokenId s =? from) eqn:Hf; cbn; [|done].
  destruct (to =? address_0); cbn; [done|].
  apply Z.eqb_eq in Hf. subst from.
  unfold _exists in Hex. apply negb_true_iff in Hex. by rewrite Hex.
Qed.


Lemma exec_register e a n s :
  exec e (RegisterParticipant a n) s =
    if negb (hasRole ISSUER_ROLE (msg_sender e) s)
    then (Revert (MissingRole (msg_sender e) ISSUER_ROLE), s)
    else if isRegistered (participants_at a s)
    then (Revert (Reason "Participant already registered"), s)
    else if negb (nonempty n)
    then (Revert (Reason "Name cannot be empty"), s)
    else (Ok RetUnit, registered e a n s).
Proof.
  unfold exec, transact, dispatch, returning, registerParticipant, onlyRole, _checkRole.
  monad.
  destruct (hasRole _ _ s); cbn; [|done].
  destruct (isRegistered _); cbn; [done|].
  by destruct (nonempty n).
Qed.

Lemma exec_issue e r uri h co s :
  exec e (IssueCertificate r uri h co) s =
    if negb (hasRole ISSUER_ROLE (msg_sender e) s)
    then (Revert (MissingRole (msg_sender e) ISSUER_ROLE), s)
    else if negb (isRegistered (participants_at r s))
    then (Revert (Reason "Recipient not registered"), s)
    else if negb (nonempty uri)
    then (Revert (Reason "Token URI cannot be empty"), s)
    else if negb (nonempty h)
    then (Revert (Reason "Content hash cannot be empty"), s)
    else
      let tokenId := (_tokenIdCounter s + 1) mod UINT256_MOD in
      if r =? address_0
      then (Revert (Reason "ERC721: mint to the zero address"), s)
      else if _exists tokenId s
      then (Revert (Reason "ERC721: token already minted"), s)
      else
        match receiver_result e address_0 r tokenId EmptyString with
        | Ok true => (Ok (RetUint tokenId), minted e r uri h co tokenId s)
        | Ok false =>
            (Revert (Reason "ERC721: transfer to non ERC721Receiver implementer"), s)
        | Revert err => (Revert err, s)
        end.
Proof.
  unfold exec, transact, dispatch, returning, issueCertificate, onlyRole, _checkRole,
    Counters.increment, Counters.current, _safeMint, _safeMint_data, _setTokenURI.
  monad.
  destruct (hasRole _ _ s); cbn; [|done].
  destruct (isRegistered _); cbn; [|done].
  destruct (nonempty uri); cbn; [|done].
  destruct (nonempty h); cbn; [|done].
  rewrite _mint_eq.
  destruct (r =? address_0) eqn:Hr; cbn; [done|].
  change (_exists ?t (set_tokenIdCounter _ s)) with (_exists t s).
  destruct (_exists _ s) eqn:Hex; cbn; [done|].
  rewrite _checkOnERC721Received_eq.
  destruct (receiver_result _ _ _ _ _) as [[]|]; cbn; try done.
  unfold _exists, _ownerOf. cbn. rewrite lookup_insert_eq. cbn. by rewrite Hr.
Qed.

Lemma exec_revoke e tokenId s :
  exec e (RevokeCertificate tokenId) s =
    if negb (hasRole ISSUER_ROLE (msg_sender e) s)
    then (Revert (MissingRole (msg_sender e) ISSUER_ROLE), s)
    else if negb (_exists tokenId s)
    then (Revert (Reason "Certificate does not exist"), s)
    else if isRevoked (certificates_at tokenId s)
    then (Revert (Reason "Certificate already revoked"), s)
    else (Ok RetUnit, revoked e tokenId s).
Proof.
  unfold exec, transact, dispatch, returning, revokeCertificate, onlyRole, _checkRole.
  monad.
  destruct (hasRole _ _ s); cbn; [|done].
  destruct (_exists tokenId s); cbn; [|done].
  by destruct (isRevoked _).
Qed.

Lemma exec_transferFrom e from to tokenId s :
  exec e (TransferFrom from to tokenId) s = (Revert (transfer_error e from to tokenId s), s).
Proof.
  unfold exec, transact, dispatch, returning, transferFrom, transfer_error.
  unfold bind at 1. unfold bind at 1. rewrite _isApprovedOrOwner_eq.
  destruct (_exists tokenId s) eqn:Hex; [|done].
  unfold bind, require. cbn.
  destruct (is_approved_or_owner _ _ s); cbn; [|done].
  rewrite _transfer_eq, Hex. done.
Qed.

Lemma exec_safeTransferFrom_data e from to tokenId data s :
  exec e (SafeTransferFromData from to tokenId data) s =
    (Revert (transfer_error e from to tokenId s), s).
Proof.
  unfold exec, transact, dispatch, returning, safeTransferFrom_data, _safeTransfer,
    transfer_error.
  unfold bind at 1. unfold bind at 1. rewrite _isApprovedOrOwner_eq.
  destruct (_exists tokenId s) eqn:Hex; [|done].
  unfold bind, require. cbn.
  destruct (is_approved_or_owner _ _ s); cbn; [|done].
  rewrite _transfer_eq, Hex. done.
Qed.

Lemma exec_safeTransferFrom e from to tokenId s :
  exec e (SafeTransferFrom from to tokenId) s =
    (Revert (transfer_error e from to tokenId s), s).
Proof. apply (exec_safeTransferFrom_data e from to tokenId EmptyString s). Qed.

Lemma exec_approve e to tokenId s :
  exec e (Approve to tokenId) s =
    if negb (_exists tokenId s) then (Revert (Reason "ERC721: invalid token ID"), s)
    else if to =? _ownerOf tokenId s
    then (Revert (Reason "ERC721: approval to current owner"), s)
    else if negb ((msg_sender e =? _ownerOf tokenId s)
                  || isApprovedForAll (_ownerOf tokenId s) (msg_sender e) s)
    then (Revert (Reason "ERC721: approve caller is not token owner or approved for all"), s)
    else (Ok RetUnit, approved_for to tokenId s).
Proof.
  unfold exec, transact, dispatch, returning, approve, _approve.
  unfold bind at 1. unfold bind at 1. rewrite ownerOf_eq.
  destruct (_exists tokenId s) eqn:Hex; [|done].
  unfold bind at 1. unfold require at 1.
  destruct (to =? _ownerOf tokenId s); cbn; [done|].
  unfold bind at 1. unfold require at 1.
  destruct (_ || _); cbn; [|done].
  unfold bind at 1. rewrite ownerOf_eq.
  change (_exists tokenId (set_tokenApprovals _ s)) with (_exists tokenId s).
  rewrite Hex. done.
Qed.

Lemma exec_setApprovalForAll e operator approved s :
  exec e (SetApprovalForAll operator approved) s =
    if msg_sender e =? operator then (Revert (Reason "ERC721: approve to caller"), s)
    else (Ok RetUnit, operator_set (msg_sender e) operator approved s).
Proof.
  unfold exec, transact, dispatch, returning, setApprovalForAll, _setApprovalForAll.
  monad. by destruct (msg_sender e =? operator).
Qed.

Lemma exec_grantRole e role account s :
  exec e (GrantRole role account) s =
    if negb (hasRole (getRoleAdmin role s) (msg_sender e) s)
    then (Revert (MissingRole (msg_sender e) (getRoleAdmin role s)), s)
    else (Ok RetUnit, role_granted e role account s).
Proof.
  unfold exec, transact, dispatch, returning, grantRole, _grantRole, onlyRole, _checkRole,
    role_granted.
  monad.
  destruct (hasRole (getRoleAdmin role s) _ s); cbn; [|done].
  by destruct (hasRole role account s).
Qed.

Lemma exec_revokeRole e role account s :
  exec e (RevokeRole role account) s =
    if negb (hasRole (getRoleAdmin role s) (msg_sender e) s)
    then (Revert (MissingRole (msg_sender e) (getRoleAdmin role s)), s)
    else (Ok RetUnit, role_revoked e role account s).
Proof.
  unfold exec, transact, dispatch, returning, revokeRole, _revokeRole, onlyRole, _checkRole,
    role_revoked.
  monad.
  destruct (hasRole (getRoleAdmin role s) _ s); cbn; [|done].
  by destruct (hasRole role account s).
Qed.

Lemma exec_renounceRole e role account s :
  exec e (RenounceRole role account) s =
    if negb (account =? msg_sender e)
    then (Revert (Reason "AccessControl: can only renounce roles for self"), s)
    else (Ok RetUnit, role_revoked e role account s).
Proof.
  unfold exec, transact, dispatch, returning, renounceRole, _revokeRole, role_revoked.
  monad.
  destruct (account =? msg_sender e); cbn; [|done].
  by destruct (hasRole role account s).
Qed.

(** A call that reverts commits nothing. *)
Lemma exec_Revert e c s err s' : exec e c s = (Revert err, s') -> s' = s.
Proof.
  unfold exec, transact. destruct (dispatch e c s) as [[v|err'] s'']; by intros [= _ <-].
Qed.

(** The code succeeds exactly as [effect] describes. *)
Lemma exec_effect e c s v s' : exec e c s = (Ok v, s') <-> effect e s c v s'.
Proof.
  split.
  - destruct c as [a n|r uri h co|t|to t|op b|from to t|from to t|from to t data
                  |role a|role a|role a].
    + rewrite exec_register.
      destruct (hasRole _ _ s) eqn:?; cbn; [|done].
      destruct (isRegistered _) eqn:?; cbn; [done|].
      destruct (nonempty _) eqn:?; cbn; [|done].
      intros [= <- <-]. by constructor.
    + rewrite exec_issue.
      destruct (hasRole _ _ s) eqn:?; cbn; [|done].
      destruct (isRegistered _) eqn:?; cbn; [|done].
      destruct (nonempty uri) eqn:?; cbn; [|done].
      destruct (nonempty h) eqn:?; cbn; [|done].
      destruct (r =? address_0) eqn:Hr; cbn; [done|].
      destruct (_exists _ s) eqn:?; cbn; [done|].
      destruct (receiver_result _ _ _ _ _) as [[]|] eqn:Hrcv; try done.
      intros [= <- <-]. constructor; try done.
      * by apply Z.eqb_neq.
      * by apply receiver_accepts_result.
    + rewrite exec_revoke.
      destruct (hasRole _ _ s) eqn:?; cbn; [|done].
      destruct (_exists _ s) eqn:?; cbn; [|done].
      destruct (isRevoked _) eqn:?; cbn; [done|].
      intros [= <- <-]. by constructor.
    + rewrite exec_approve.
      destruct (_exists _ s) eqn:?; cbn; [|done].
      destruct (to =? _) eqn:Ht; cbn; [done|].
      destruct (_ || _) eqn:?; cbn; [|done].
      intros [= <- <-]. constructor; try done. by apply Z.eqb_neq.
    + rewrite exec_setApprovalForAll.
      destruct (_ =? _) eqn:Ho; [done|].
      intros [= <- <-]. constructor. by apply Z.eqb_neq.
    + by rewrite exec_transferFrom.
    + by rewrite exec_safeTransferFrom.
    + by rewrite exec_safeTransferFrom_data.
    + rewrite exec_grantRole.
      destruct (hasRole _ _ s) eqn:?; cbn; [|done].
      intros [= <- <-]. by constructor.
    + rewrite exec_revokeRole.
      destruct (hasRole _ _ s) eqn:?; cbn; [|done].
      intros [= <- <-]. by constructor.
    + rewrite exec_renounceRole.
      destruct (_ =? _) eqn:Ha; cbn; [|done].
      intros [= <- <-]. constructor. by apply Z.eqb_eq.
  - intros [a n Hrole Hreg Hn
           |r uri h co t Hrole Hreg Huri Hh -> Hr Hex Hrcv
           |t Hrole Hex Hrev
           |to t Hex Hto Hsender
           |op b Hop
           |role a Hrole
           |role a Hrole
           |role a ->].
    + rewrite exec_register. by rewrite Hrole, Hreg, Hn.
    + rewrite exec_issue. rewrite Hrole, Hreg, Huri, Hh. cbn.
      apply Z.eqb_neq in Hr. rewrite Hr, Hex.
      apply receiver_accepts_result in Hrcv. by rewrite Hrcv.
    + rewrite exec_revoke. by rewrite Hrole, Hex, Hrev.
    + rewrite exec_approve. rewrite Hex. apply Z.eqb_neq in Hto. by rewrite Hto, Hsender.
    + rewrite exec_setApprovalForAll. apply Z.eqb_neq in Hop. by rewrite Hop.
    + rewrite exec_grantRole. by rewrite Hrole.
    + rewrite exec_revokeRole. by rewrite Hrole.
    + rewrite exec_renounceRole. by rewrite Z.eqb_refl.
Qed.

Lemma exec_cases e c s r s' :
  exec e c s = (r, s') ->
  (exists err, r = Revert err /\ s' = s) \/ (exists v, r = Ok v /\ effect e s c v s').
Proof.
  destruct r as [v|err]; intros H.
  - right. exists v. split; [done|]. by apply exec_effect.
  - left. exists err. split; [done|]. by apply exec_Revert in H.
Qed.

Lemma issued_Revert c err : issued c (Revert err) = [].
Proof. by destruct c. Qed.

(** ** How each part of storage moves under a successful call *)

Ltac effect_cases H :=
  destruct H; unfold registered, minted, revoked, approved_for, operator_set,
    role_granted, role_revoked, log; cbn;
  try match goal with |- context [hasRole ?r ?a ?s] => destruct (hasRole r a s) end;
  cbn.

Lemma effect_owners e s c v s' :
  effect e s c v s' ->
  _owners s' =
    match issued c (Ok v) with
    | (r, t) :: _ => <[t := r]> (_owners s)
    | [] => _owners s
    end.
Proof. intros H. by effect_cases H. Qed.

Lemma effect_tokenIdCounter e s c v s' :
  effect e s c v s' ->
  _tokenIdCounter s' =
    match issued c (Ok v) with
    | (r, t) :: _ => t
    | [] => _tokenIdCounter s
    end.
Proof. intros H. by effect_cases H. Qed.


Lemma effect_certificates e s c v s' :
  effect e s c v s' ->
  certificates s' =
    match c, v with
    | IssueCertificate r _ h co, RetUint t =>
        <[t := mkCertificate r h co (block_timestamp e) false]> (certificates s)
    | RevokeCertificate t, _ =>
        <[t := mark_revoked (certificates_at t s)]> (certificates s)
    | _, _ => certificates s
    end.
Proof. intros H. by effect_cases H. Qed.

Lemma effect_participants e s c v s' :
  effect e s c v s' ->
  participants s' =
    match c with
    | RegisterParticipant a n =>
        <[a := mkParticipant n (block_timestamp e) true]> (participants s)
    | _ => participants s
    end.
Proof. intros H. by effect_cases H. Qed.

(** What must hold for an issuance to succeed. *)
Lemma effect_issued e s c v s' r t :
  effect e s c v s' ->
  issued c (Ok v) = [(r, t)] ->
  t = (_tokenIdCounter s + 1) mod UINT256_MOD /\
  r ≠ address_0 /\
  _exists t s = false /\
  hasRole ISSUER_ROLE (msg_sender e) s = true /\
  isRegistered (participants_at r s) = true.
Proof. destruct 1; cbn; try done. by intros [= <- <-]. Qed.

Lemma issued_cases c r :
  issued c r = [] \/ exists rcpt t, issued c r = [(rcpt, t)].
Proof. destruct c, r as [[]|]; cbn; eauto. Qed.

(** ** Reachable storage *)

Lemma deploy_storage e0 :
  _owners (deploy e0) = ∅ /\ _tokenIdCounter (deploy e0) = 0 /\
  participants (deploy e0) = ∅ /\ certificates (deploy e0) = ∅ /\
  _participantCertificates (deploy e0) = ∅.
Proof.
  unfold deploy, transact, constructor, _grantRole. monad.
  destruct (hasRole DEFAULT_ADMIN_ROLE _ _); cbn;
    match goal with |- context [hasRole ?r ?a ?s] => by destruct (hasRole r a s) end.
Qed.

(** Induction over reachable storage, one successful call at a time. *)
Lemma reaches_effect_ind e0 (P : list (address * uint256) -> State -> Prop) :
  P [] (deploy e0) ->
  (forall h s e c v s',
     reaches e0 h s -> P h s -> effect e s c v s' -> P (h ++ issued c (Ok v)) s') ->
  forall h s, reaches e0 h s -> P h s.
Proof.
  intros Hbase Hstep h s Hreach.
  induction Hreach as [|h s e c r s' Hreach IH Hexec]; [done|].
  apply exec_cases in Hexec as [(err & -> & ->)|(v & -> & Heff)].
  - by rewrite issued_Revert, app_nil_r.
  - by eapply Hstep.
Qed.

Lemma _exists_lookup t s :
  _exists t s = true <-> exists o, _owners s !! t = Some o /\ o ≠ address_0.
Proof.
  unfold _exists, _ownerOf. rewrite negb_true_iff, Z.eqb_neq.
  destruct (_owners s !! t) as [o|]; cbn.
  - split; [eauto|]. by intros (? & [= <-] & ?).
  - split; [done|]. by intros (? & ? & ?).
Qed.

(** The owners table holds exactly the certificates handed out, each id once. *)
Lemma reaches_owners e0 h s :
  reaches e0 h s ->
  (forall r t, (r, t) ∈ h <-> _owners s !! t = Some r) /\
  (forall r t, (r, t) ∈ h -> r ≠ address_0) /\
  NoDup (issued_ids h).
Proof.
  revert h s. apply reaches_effect_ind.
  - destruct (deploy_storage e0) as (-> & _). split_and!.
    + intros r t. rewrite lookup_empty. split; [|done]. by intros ?%elem_of_nil.
    + by intros r t ?%elem_of_nil.
    + constructor.
  - intros h s e c v s' _ (IHo & IHn & IHd) Heff.
    rewrite (effect_owners _ _ _ _ _ Heff).
    destruct (issued_cases c (Ok v)) as [Hi|(r' & t' & Hi)]; rewrite Hi.
    { by rewrite app_nil_r. }
    destruct (effect_issued _ _ _ _ _ _ _ Heff Hi) as (_ & Hr' & Hex & _).
    assert (Hfresh : forall r, (r, t') ∉ h).
    { intros r Hin. apply not_true_iff_false in Hex. apply Hex.
      apply _exists_lookup. exists r. split; [by apply IHo|by eapply IHn]. }
    split_and!.
    + intros r t. rewrite elem_of_app, list_elem_of_singleton.
      destruct (decide (t = t')) as [->|Hne].
      * rewrite lookup_insert_eq. split.
        -- intros [Hin|Heq]; [by apply Hfresh in Hin|by simplify_eq].
        -- intros [= ->]. by right.
      * rewrite lookup_insert_ne by done. rewrite IHo. split; [|by left].
        intros [?|Heq]; [done|by simplify_eq].
    + intros r t [Hin|Heq%list_elem_of_singleton]%elem_of_app; [by eapply IHn|].
      by simplify_eq.
    + unfold issued_ids in *. rewrite fmap_app. cbn.
      apply NoDup_app. split_and!; [done| |apply NoDup_singleton].
      intros t Hin ->%list_elem_of_singleton.
      apply list_elem_of_fmap in Hin as ([r t''] & Heq & Hin). cbn in Heq. subst t''.
      by apply Hfresh in Hin.
Qed.





Lemma uint256_succ (n : nat) :
  Z.of_nat (S n) < UINT256_MOD -> (Z.of_nat n + 1) mod UINT256_MOD = Z.of_nat (S n).
Proof. intros H. rewrite Z.mod_small; lia. Qed.


(** The ids handed out, position by position: the one at position [k]
    (counting from 0) is [k + 1], as long as that fits a [uint256]. *)
Lemma reaches_issued_ids e0 h s :
  reaches e0 h s ->
  (Z.of_nat (length h) < UINT256_MOD -> _tokenIdCounter s = Z.of_nat (length h)) /\
  (forall (k : nat) t, issued_ids h !! k = Some t ->
     Z.of_nat (S k) < UINT256_MOD -> t = Z.of_nat (S k)).
Proof.
  revert h s. apply reaches_effect_ind.
  - destruct (deploy_storage e0) as (_ & -> & _). done.
  - intros h s e c v s' _ [IHc IHk] Heff.
    rewrite (effect_tokenIdCounter _ _ _ _ _ Heff).
    destruct (issued_cases c (Ok v)) as [Hi|(r' & t' & Hi)]; rewrite Hi.
    { by rewrite app_nil_r. }
    destruct (effect_issued _ _ _ _ _ _ _ Heff Hi) as (Ht' & _).
    assert (Z.of_nat (S (length h)) < UINT256_MOD -> t' = Z.of_nat (S (length h))) as Hnew.
    { intros Hlen. rewrite IHc, uint256_succ in Ht' by lia. done. }
    split.
    + rewrite length_app. cbn [length]. rewrite Nat.add_1_r. done.
    + intros k t. unfold issued_ids in *. rewrite fmap_app. cbn.
      intros Hk Hlt. apply lookup_app_Some in Hk as [Hk|[Hge Hk]]; [by apply IHk|].
      rewrite length_fmap in Hge, Hk.
      apply list_lookup_singleton_Some in Hk as [Hk0 <-].
      assert (k = length h) as -> by lia. by apply Hnew.
Qed.

Lemma reaches_run e0 txs : forall h s h' s',
  reaches e0 h s -> run txs h s = (h', s') -> reaches e0 h' s'.
Proof.
  induction txs as [|[e c] txs IH]; intros h s h' s' Hreach; cbn.
  - by intros [= <- <-].
  - destruct (exec e c s) as [r s1] eqn:Hexec. intros Hrun.
    eapply IH; [|done]. by eapply reaches_call.
Qed.

(** ** Tokens that exist stay as they are

    No call moves or removes a token that exists, and its certificate record
    changes in the [isRevoked] flag only, from false to true. *)
Lemma exec_token_stable e c s r s' t :
  exec e c s = (r, s') ->
  _exists t s = true ->
  _exists t s' = true /\
  _ownerOf t s' = _ownerOf t s /\
  recipient (certificates_at t s') = recipient (certificates_at t s) /\
  contentHash (certificates_at t s') = contentHash (certificates_at t s) /\
  cohort (certificates_at t s') = cohort (certificates_at t s) /\
  issuedAt (certificates_at t s') = issuedAt (certificates_at t s) /\
  (isRevoked (certificates_at t s) = true -> isRevoked (certificates_at t s') = true).
Proof.
  intros Hexec Hex.
  apply exec_cases in Hexec as [(err & -> & ->)|(v & -> & Heff)]; [done|].
  unfold _exists, _ownerOf, certificates_at in *.
  rewrite (effect_owners _ _ _ _ _ Heff), (effect_certificates _ _ _ _ _ Heff).
  destruct Heff as [a n Hrole Hreg Hn
           |r uri hs co t' Hrole Hreg Huri Hh -> Hr Hex' Hrcv
           |t' Hrole Hex' Hrev
           |to t' Hex' Hto Hsender
           |op b Hop
           |role a Hrole
           |role a Hrole
           |role a ->]; cbn; try done.
  - assert (t ≠ (_tokenIdCounter s + 1) mod UINT256_MOD) as Hne.
    { intros ->. unfold _exists, _ownerOf in Hex'. congruence. }
    by rewrite !lookup_insert_ne.
  - destruct (decide (t' = t)) as [->|Hne].
    + rewrite lookup_insert_eq. cbn. done.
    + by rewrite lookup_insert_ne.
Qed.

Lemma later_token_stable s s' t :
  later s s' ->
  _exists t s = true ->
  _exists t s' = true /\
  _ownerOf t s' = _ownerOf t s /\
  recipient (certificates_at t s') = recipient (certificates_at t s) /\
  contentHash (certificates_at t s') = contentHash (certificates_at t s) /\
  cohort (certificates_at t s') = cohort (certificates_at t s) /\
  issuedAt (certificates_at t s') = issuedAt (certificates_at t s) /\
  (isRevoked (certificates_at t s) = true -> isRevoked (certificates_at t s') = true).
Proof.
  induction 1 as [s|s s1 e c r s2 _ IH Hexec]; [done|].
  intros Hex. destruct (IH Hex) as (Hex1 & Ho & Hr & Hh & Hc & Hi & Hrev).
  destruct (exec_token_stable _ _ _ _ _ t Hexec Hex1)
    as (Hex2 & Ho2 & Hr2 & Hh2 & Hc2 & Hi2 & Hrev2).
  split_and!; [done|congruence..|auto].
Qed.

(** [verifyCertificate] as one equation. *)
Lemma verifyCertificate_eq t s :
  verifyCertificate t s =
    (Ok (if _exists t s
         then (negb (isRevoked (certificates_at t s)), recipient (certificates_at t s),
               contentHash (certificates_at t s), cohort (certificates_at t s),
               issuedAt (certificates_at t s))
         else (false, address_0, EmptyString, EmptyString, 0)), s).
Proof. unfold verifyCertificate. monad. by destruct (_exists t s). Qed.

(** ** Concrete reachable storage *)

Lemma reaches_s1 : reaches Scenario.e0 [] Scenario.s1.
Proof.
  apply (reaches_run Scenario.e0
           [(Scenario.env Scenario.deployer 1700000100,
             RegisterParticipant Scenario.alice "Alice")] [] Scenario.s0);
    [apply reaches_deploy|].
  vm_compute. reflexivity.
Qed.

Lemma reaches_s2 : reaches Scenario.e0 [(Scenario.alice, 1)] Scenario.s2.
Proof.
  apply (reaches_run Scenario.e0 Scenario.txs2 [] Scenario.s0); [apply reaches_deploy|].
  vm_compute. reflexivity.
Qed.

Lemma reaches_s3 : reaches Scenario.e0 [(Scenario.alice, 1)] Scenario.s3.
Proof.
  apply (reaches_run Scenario.e0 Scenario.txs3 [] Scenario.s0); [apply reaches_deploy|].
  vm_compute. reflexivity.
Qed.

(** The end-to-end scenario: register Alice, issue, read back, revoke. *)
Example scenario_end_to_end :
  exec (Scenario.env Scenario.deployer 1700000200) Scenario.issue1 Scenario.s1
    = (Ok (RetUint 1), Scenario.s2) /\
  fst (verifyCertificate 1 Scenario.s2)
    = Ok (true, Scenario.alice, "sha256:deadbeef", "2024-Q1", 1700000200) /\
  fst (getParticipantCertificates Scenario.alice Scenario.s2) = Ok [1] /\
  fst (locked 1 Scenario.s2) = Ok true /\
  exec (Scenario.env Scenario.deployer 1700000300) (RevokeCertificate 1) Scenario.s2
    = (Ok RetUnit, Scenario.s3) /\
  fst (verifyCertificate 1 Scenario.s3)
    = Ok (false, Scenario.alice, "sha256:deadbeef", "2024-Q1", 1700000200).
Proof. repeat split; vm_compute; reflexivity. Qed.

(** A caller without the issuer role is turned away; once the admin grants
    the role, the same call goes through. *)
Example scenario_roles :
  fst (exec (Scenario.env Scenario.bob 1700000100)
         (RegisterParticipant Scenario.alice "Alice") Scenario.s0)
    = Revert (MissingRole Scenario.bob ISSUER_ROLE) /\
  fst (exec (Scenario.env Scenario.bob 1700000100)
         (RegisterParticipant Scenario.alice "Alice")
         (snd (exec (Scenario.env Scenario.deployer 1700000050)
                 (GrantRole ISSUER_ROLE Scenario.bob) Scenario.s0)))
    = Ok RetUnit.
Proof. split; vm_compute; reflexivity. Qed.

(** When the recipient's hook refuses the token, the body of
    [issueCertificate] has already advanced the counter and written the
    owner; the transaction discards both. *)
Example issue_revert_discards_writes :
  let e := Scenario.env_vault Scenario.deployer 1700000200 in
  let body := issueCertificate e Scenario.vault "ipfs://V" "hash" "cohort" Scenario.sv in
  fst body = Revert (Reason "ERC721: transfer to non ERC721Receiver implementer") /\
  _tokenIdCounter (snd body) = 1 /\
  _exists 1 (snd body) = true /\
  exec e (IssueCertificate Scenario.vault "ipfs://V" "hash" "cohort") Scenario.sv
    = (Revert (Reason "ERC721: transfer to non ERC721Receiver implementer"), Scenario.sv) /\
  _tokenIdCounter Scenario.sv = 0.
Proof. repeat split; vm_compute; reflexivity. Qed.

(** ** Supporting lemmas *)

Lemma exec_transfer e from to tokenId c s :
  is_transfer_of from to tokenId c ->
  exec e c s = (Revert (transfer_error e from to tokenId s), s).
Proof.
  intros [->|[->|[data ->]]].
  - apply exec_transferFrom.
  - apply exec_safeTransferFrom.
  - apply exec_safeTransferFrom_data.
Qed.



(** In reachable storage a token exists exactly when its id was handed out. *)
Lemma reaches_exists e0 h s t :
  reaches e0 h s -> (_exists t s = true <-> t ∈ issued_ids h).
Proof.
  intros Hreach. destruct (reaches_owners _ _ _ Hreach) as (Ho & Hnz & _).
  rewrite _exists_lookup. unfold issued_ids. rewrite list_elem_of_fmap. split.
  - intros (o & Hlk & _). exists (o, t). split; [done|]. by apply Ho.
  - intros ([o t'] & -> & Hin). exists o. split; [by apply Ho|by eapply Hnz].
Qed.

(** What a successful [issueCertificate] leaves at the new id. *)
Lemma minted_token e r uri hash co t s :
  r ≠ address_0 ->
  _exists t (minted e r uri hash co t s) = true /\
  _ownerOf t (minted e r uri hash co t s) = r /\
  certificates_at t (minted e r uri hash co t s)
    = mkCertificate r hash co (block_timestamp e) false.
Proof.
  intros Hr. unfold _exists, _ownerOf, certificates_at, minted, log. cbn.
  rewrite !lookup_insert_eq. cbn. apply Z.eqb_neq in Hr. by rewrite Hr.
Qed.

Lemma registered_participant e a n s :
  participants_at a (registered e a n s) = mkParticipant n (block_timestamp e) true.
Proof. unfold participants_at, registered, log. cbn. by rewrite lookup_insert_eq. Qed.

(** A participant record, once written, is never written again. *)
Lemma exec_participant_stable e c s a :
  isRegistered (participants_at a s) = true ->
  participants_at a (snd (exec e c s)) = participants_at a s.
Proof.
  intros Hreg. destruct (exec e c s) as [r s'] eqn:Hexec. cbn.
  apply exec_cases in Hexec as [(err & -> & ->)|(v & -> & Heff)]; [done|].
  unfold participants_at in *. rewrite (effect_participants _ _ _ _ _ Heff).
  destruct c as [a' n|r uri h co|t|to t|op b|from to t|from to t|from to t data
                |role a'|role a'|role a']; try done.
  inversion Heff as [a'' n' Hrole Hfresh Hn| | | | | | |]; subst.
  destruct (decide (a' = a)) as [->|Hne].
  - unfold participants_at in Hfresh. congruence.
  - by rewrite lookup_insert_ne.
Qed.


(** * The claims *)

(** C1, as stated, fails: in the storage reached by registering Alice and
    issuing her certificate 1, a transfer of that certificate attempted by
    Bob, who is neither its owner nor approved, reverts with the library's
    authorization error and not with NonTransferable. *)
Lemma C1_stranger_transfer_not_NonTransferable :
  reaches Scenario.e0 [(Scenario.alice, 1)] Scenario.s2 /\
  _exists 1 Scenario.s2 = true /\
  exec (Scenario.env Scenario.bob 1700000300)
       (TransferFrom Scenario.alice Scenario.bob 1) Scenario.s2
    = (Revert (Reason "ERC721: caller is not token owner or approved"), Scenario.s2) /\
  ~ fails_with NonTransferable
      (fst (exec (Scenario.env Scenario.bob 1700000300)
              (TransferFrom Scenario.alice Scenario.bob 1) Scenario.s2)).
Proof.
  split; [apply reaches_s2|].
  split; [vm_compute; reflexivity|].
  split; [vm_compute; reflexivity|].
  vm_compute. discriminate.
Qed.

(** C1 (amended): in every reachable state, every transfer attempt on an
    issued certificate ([transferFrom] or either [safeTransferFrom]), by any
    caller, reverts with the first failing check of [transfer_error] and
    leaves storage unchanged; the revert is NonTransferable whenever the
    caller is the owner or approved, [from] is the owner and [to] is not the
    zero address.  The hook lets a mint (from the zero address) pass, and the
    owner of every token is, in every reachable state, the recipient it was
    issued to. *)
Theorem C1_transfers_revert e0 h s :
  reaches e0 h s ->
  (forall e from to tokenId c,
     is_transfer_of from to tokenId c ->
     _exists tokenId s = true ->
     exec e c s = (Revert (transfer_error e from to tokenId s), s) /\
     (is_approved_or_owner (msg_sender e) tokenId s = true ->
      from = _ownerOf tokenId s -> to ≠ address_0 ->
      fails_with NonTransferable (fst (exec e c s))) /\
     (msg_sender e = _ownerOf tokenId s ->
      from = _ownerOf tokenId s -> to ≠ address_0 ->
      fails_with NonTransferable (fst (exec e c s)))) /\
  (forall to tokenId, _beforeTokenTransfer address_0 to tokenId 1 s = (Ok tt, s)) /\
  (forall r t, (r, t) ∈ h -> _ownerOf t s = r).
Proof.
  intros Hreach. split_and!.
  - intros e from to tokenId c Hc Hex.
    rewrite (exec_transfer _ _ _ _ _ _ Hc).
    assert (is_approved_or_owner (msg_sender e) tokenId s = true ->
      from = _ownerOf tokenId s -> to ≠ address_0 ->
      fails_with NonTransferable
        (Revert (transfer_error e from to tokenId s) : Result Return)) as Happ.
    { intros Ha -> Hto. unfold transfer_error. rewrite Hex, Ha, Z.eqb_refl. cbn.
      apply Z.eqb_neq in Hto. by rewrite Hto. }
    split_and!; [done..|].
    intros Hs. apply Happ. unfold is_approved_or_owner.
    apply Z.eqb_eq in Hs. by rewrite Hs.
  - done.
  - intros r t Hin. destruct (reaches_owners _ _ _ Hreach) as (Ho & _).
    apply Ho in Hin. unfold _ownerOf. by rewrite Hin.
Qed.

Lemma C1_transfers_revert_witness :
  reaches Scenario.e0 [(Scenario.alice, 1)] Scenario.s2 /\
  fails_with NonTransferable
    (fst (exec (Scenario.env Scenario.alice 1700000300)
            (TransferFrom Scenario.alice Scenario.bob 1) Scenario.s2)) /\
  _ownerOf 1 Scenario.s2 = Scenario.alice.
Proof.
  pose proof (C1_transfers_revert Scenario.e0 [(Scenario.alice, 1)] Scenario.s2 reaches_s2)
    as (Htr & _ & Hown).
  split; [apply reaches_s2|]. split.
  - destruct (Htr (Scenario.env Scenario.alice 1700000300) Scenario.alice Scenario.bob 1
                (TransferFrom Scenario.alice Scenario.bob 1)) as (_ & _ & Hnt).
    + by left.
    + vm_compute; reflexivity.
    + apply Hnt; [vm_compute; reflexivity..|vm_compute; discriminate].
  - apply Hown. by left.
Defined.



(** C3: after [issueCertificate(r, uri, hash, cohort)] returns [t] in a block
    with a positive timestamp, [verifyCertificate(t)] returns
    (true, r, hash, cohort, issuedAt) with [issuedAt > 0], the timestamp of
    that block; whatever transactions follow, a later successful
    [revokeCertificate(t)] makes it return the same tuple with [isValid]
    false and nothing else changed. *)
Theorem C3_verify_round_trip e r uri hash co s t s1 :
  0 < block_timestamp e ->
  exec e (IssueCertificate r uri hash co) s = (Ok (RetUint t), s1) ->
  let issuedAt := block_timestamp e in
  verifyCertificate t s1 = (Ok (true, r, hash, co, issuedAt), s1) /\
  issuedAt > 0 /\
  (forall s2 e' s3,
     later s1 s2 ->
     exec e' (RevokeCertificate t) s2 = (Ok RetUnit, s3) ->
     verifyCertificate t s2 = (Ok (true, r, hash, co, issuedAt), s2) /\
     verifyCertificate t s3 = (Ok (false, r, hash, co, issuedAt), s3)).
Proof.
  intros Hts Hissue issuedAt.
  apply exec_effect in Hissue.
  inversion Hissue as [|r' uri' h' co' t' Hrole Hreg Huri Hh Ht Hr Hex Hrcv| | | | | |];
    subst.
  destruct (minted_token e r uri hash co
              ((_tokenIdCounter s + 1) mod UINT256_MOD) s Hr) as (Hex1 & Ho1 & Hc1).
  split_and!.
  - rewrite verifyCertificate_eq, Hex1, Hc1. done.
  - lia.
  - intros s2 e' s3 Hlater Hrevoke.
    destruct (later_token_stable _ _ _ Hlater Hex1) as (Hex2 & _ & Hr2 & Hh2 & Hc2 & Hi2 & _).
    rewrite Hc1 in Hr2, Hh2, Hc2, Hi2. cbn in Hr2, Hh2, Hc2, Hi2.
    destruct (exec_token_stable _ _ _ _ _ _ Hrevoke Hex2)
      as (Hex3 & _ & Hr3 & Hh3 & Hc3 & Hi3 & _).
    rewrite exec_revoke in Hrevoke.
    destruct (hasRole _ _ s2); cbn in Hrevoke; [|done].
    rewrite Hex2 in Hrevoke. cbn in Hrevoke.
    destruct (isRevoked (certificates_at _ s2)) eqn:Hrev; [done|].
    injection Hrevoke as <-.
    split.
    + rewrite verifyCertificate_eq, Hex2, Hrev, Hr2, Hh2, Hc2, Hi2. done.
    + rewrite verifyCertificate_eq, Hex3, Hr3, Hh3, Hc3, Hi3, Hr2, Hh2, Hc2, Hi2.
      match goal with |- context [isRevoked ?c] =>
        assert (isRevoked c = true) as ->; [|done] end.
      unfold certificates_at, revoked, log. cbn. by rewrite lookup_insert_eq.
Qed.

Lemma C3_verify_round_trip_witness :
  verifyCertificate 1 Scenario.s2
    = (Ok (true, Scenario.alice, "sha256:deadbeef", "2024-Q1", 1700000200), Scenario.s2) /\
  verifyCertificate 1 Scenario.s3
    = (Ok (false, Scenario.alice, "sha256:deadbeef", "2024-Q1", 1700000200), Scenario.s3).
Proof.
  destruct (C3_verify_round_trip (Scenario.env Scenario.deployer 1700000200)
              Scenario.alice "ipfs://X" "sha256:deadbeef" "2024-Q1"
              Scenario.s1 1 Scenario.s2) as (Hissued & _ & Hrevoked).
  - vm_compute; reflexivity.
  - vm_compute; reflexivity.
  - split; [exact Hissued|].
    apply (Hrevoked Scenario.s2 (Scenario.env Scenario.deployer 1700000300) Scenario.s3).
    + apply later_now.
    + vm_compute; reflexivity.
Defined.

(** C4: for a tokenId that no successful [issueCertificate] ever returned,
    [verifyCertificate] does not revert; it returns the sentinel
    (false, address(0), empty, empty, 0) and leaves storage as it is. *)
Theorem C4_verify_never_issued e0 h s t :
  reaches e0 h s ->
  t ∉ issued_ids h ->
  verifyCertificate t s = (Ok (false, address_0, EmptyString, EmptyString, 0), s).
Proof.
  intros Hreach Hnot.
  rewrite verifyCertificate_eq.
  destruct (_exists t s) eqn:Hex; [|done].
  by apply (reaches_exists _ _ _ _ Hreach) in Hex.
Qed.

Lemma C4_verify_never_issued_witness :
  reaches Scenario.e0 [(Scenario.alice, 1)] Scenario.s2 /\
  (999 ∉ issued_ids [(Scenario.alice, 1)]) /\
  verifyCertificate 999 Scenario.s2
    = (Ok (false, address_0, EmptyString, EmptyString, 0), Scenario.s2).
Proof.
  assert (999 ∉ issued_ids [(Scenario.alice, 1)]) as Hnot.
  { cbn. intros Hin%list_elem_of_singleton. lia. }
  split; [apply reaches_s2|]. split; [exact Hnot|].
  apply (C4_verify_never_issued Scenario.e0 [(Scenario.alice, 1)] Scenario.s2 999);
    [apply reaches_s2|exact Hnot].
Defined.

(** C5: called by an issuer, [issueCertificate] fails with NotRegistered for
    every unregistered recipient, and for a registered one with
    InvalidArgument whenever [tokenURI] or [contentHash] is empty; an empty
    [cohort] is never a reason to fail.  A failed call commits nothing, the
    counter included, so the next successful issuance still receives the next
    sequential id. *)
Theorem C5_issue_failures e0 h s e r uri hash co :
  reaches e0 h s ->
  hasRole ISSUER_ROLE (msg_sender e) s = true ->
  let res := fst (exec e (IssueCertificate r uri hash co) s) in
  let s' := snd (exec e (IssueCertificate r uri hash co) s) in
  (isRegistered (participants_at r s) = false -> fails_with NotRegistered res) /\
  (isRegistered (participants_at r s) = true ->
   nonempty uri = false \/ nonempty hash = false -> fails_with InvalidArgument res) /\
  fst (exec e (IssueCertificate r uri hash EmptyString) s)
    = fst (exec e (IssueCertificate r uri hash co) s) /\
  (forall err, res = Revert err ->
     s' = s /\ _tokenIdCounter s' = _tokenIdCounter s /\
     forall e2 r2 uri2 hash2 co2 t s2,
       exec e2 (IssueCertificate r2 uri2 hash2 co2) s' = (Ok (RetUint t), s2) ->
       Z.of_nat (S (length h)) < UINT256_MOD ->
       t = Z.of_nat (length h) + 1).
Proof.
  intros Hreach Hrole res s'. split_and!.
  - intros Hreg. subst res. rewrite exec_issue, Hrole, Hreg. done.
  - intros Hreg Hempty. subst res. rewrite exec_issue, Hrole, Hreg. cbn.
    destruct (nonempty uri); [|done]. cbn.
    destruct Hempty as [Hu | ->]; done.
  - rewrite !exec_issue.
    destruct (negb (hasRole _ _ s)); [done|].
    destruct (negb (isRegistered _)); [done|].
    destruct (negb (nonempty uri)); [done|].
    destruct (negb (nonempty hash)); [done|]. cbn.
    destruct (r =? address_0); [done|].
    destruct (_exists _ s); [done|].
    by destruct (receiver_result _ _ _ _ _) as [[]|].
  - intros err Hres. subst res s'.
    destruct (exec e (IssueCertificate r uri hash co) s) as [res s'] eqn:Hexec.
    cbn in *. subst res. apply exec_Revert in Hexec as ->.
    split_and!; [done..|].
    intros e2 r2 uri2 hash2 co2 t s2 Hissue Hfit.
    apply exec_effect in Hissue.
    destruct (effect_issued _ _ _ _ _ r2 t Hissue) as (-> & _); [done|].
    destruct (reaches_issued_ids _ _ _ Hreach) as (Hc & _).
    rewrite Hc by lia. rewrite uint256_succ by done. lia.
Qed.

Lemma C5_issue_failures_witness :
  fails_with NotRegistered
    (fst (exec (Scenario.env Scenario.deployer 1700000150)
            (IssueCertificate Scenario.bob "ipfs://Y" "hash" "cohort") Scenario.s1)) /\
  fails_with InvalidArgument
    (fst (exec (Scenario.env Scenario.deployer 1700000150)
            (IssueCertificate Scenario.alice EmptyString "hash" "cohort") Scenario.s1)).
Proof.
  split.
  - apply (C5_issue_failures Scenario.e0 [] Scenario.s1
             (Scenario.env Scenario.deployer 1700000150)
             Scenario.bob "ipfs://Y" "hash" "cohort" reaches_s1); vm_compute; reflexivity.
  - apply (C5_issue_failures Scenario.e0 [] Scenario.s1
             (Scenario.env Scenario.deployer 1700000150)
             Scenario.alice EmptyString "hash" "cohort" reaches_s1);
      [vm_compute; reflexivity|vm_compute; reflexivity|left; vm_compute; reflexivity].
Defined.

(** C6: after [registerParticipant(a, n)] succeeds, a second
    [registerParticipant(a, n2)] by an issuer fails with AlreadyRegistered and
    changes nothing: [a] stays registered under the name [n], as it does
    under every other call.  With an empty name the call fails whoever calls
    it and whatever the storage, and changes nothing; for an issuer and an
    address not yet registered the failure is InvalidArgument. *)
Theorem C6_register_failures e1 e2 a n n2 s s1 :
  exec e1 (RegisterParticipant a n) s = (Ok RetUnit, s1) ->
  hasRole ISSUER_ROLE (msg_sender e2) s1 = true ->
  (fails_with AlreadyRegistered (fst (exec e2 (RegisterParticipant a n2) s1)) /\
   snd (exec e2 (RegisterParticipant a n2) s1) = s1 /\
   isRegistered (participants_at a (snd (exec e2 (RegisterParticipant a n2) s1))) = true /\
   name (participants_at a (snd (exec e2 (RegisterParticipant a n2) s1))) = n) /\
  (forall e c, participants_at a (snd (exec e c s1)) = participants_at a s1) /\
  (forall e b s0,
     (exists err, exec e (RegisterParticipant b EmptyString) s0 = (Revert err, s0)) /\
     (hasRole ISSUER_ROLE (msg_sender e) s0 = true ->
      isRegistered (participants_at b s0) = false ->
      fails_with InvalidArgument (fst (exec e (RegisterParticipant b EmptyString) s0)))).
Proof.
  intros Hfirst Hrole.
  rewrite exec_register in Hfirst.
  destruct (hasRole _ _ s); cbn in Hfirst; [|done].
  destruct (isRegistered (participants_at a s)); [done|].
  destruct (nonempty n); cbn in Hfirst; [|done].
  injection Hfirst as <-.
  split; [|split].
  - rewrite exec_register, Hrole, !registered_participant. cbn.
    by rewrite registered_participant.
  - intros e c. apply exec_participant_stable. by rewrite registered_participant.
  - intros e b s0. rewrite exec_register. split.
    + destruct (negb (hasRole _ _ s0)); [eauto|].
      destruct (isRegistered _); [eauto|]. cbn. eauto.
    + by intros -> ->.
Qed.

Lemma C6_register_failures_witness :
  fails_with AlreadyRegistered
    (fst (exec (Scenario.env Scenario.deployer 1700000150)
            (RegisterParticipant Scenario.alice "Alice Again") Scenario.s1)) /\
  name (participants_at Scenario.alice
          (snd (exec (Scenario.env Scenario.deployer 1700000150)
                  (RegisterParticipant Scenario.alice "Alice Again") Scenario.s1)))
    = "Alice" /\
  fails_with InvalidArgument
    (fst (exec (Scenario.env Scenario.deployer 1700000150)
            (RegisterParticipant Scenario.bob EmptyString) Scenario.s1)).
Proof.
  destruct (C6_register_failures (Scenario.env Scenario.deployer 1700000100)
              (Scenario.env Scenario.deployer 1700000150)
              Scenario.alice "Alice" "Alice Again" Scenario.s0 Scenario.s1)
    as ((Hfail & _ & _ & Hname) & _ & Hempty); [vm_compute; reflexivity..|].
  split; [exact Hfail|]. split; [exact Hname|].
  apply Hempty; vm_compute; reflexivity.
Defined.



(** C8: a call that fails, whatever the error, commits nothing: after a
    failed [registerParticipant], [issueCertificate] or [revokeCertificate]
    (or any other call) the whole storage, event log included, is exactly the
    storage before the call. *)
Theorem C8_failed_call_commits_nothing e c s err s' :
  exec e c s = (Revert err, s') ->
  s' = s.
Proof. apply exec_Revert. Qed.

Lemma C8_failed_call_commits_nothing_witness :
  snd (exec (Scenario.env_vault Scenario.deployer 1700000200)
         (IssueCertificate Scenario.vault "ipfs://V" "hash" "cohort") Scenario.sv)
    = Scenario.sv.
Proof.
  apply (C8_failed_call_commits_nothing (Scenario.env_vault Scenario.deployer 1700000200)
           (IssueCertificate Scenario.vault "ipfs://V" "hash" "cohort") Scenario.sv
           (Reason "ERC721: transfer to non ERC721Receiver implementer")).
  vm_compute. reflexivity.
Defined.





(** * Further properties *)

(** ** More of how storage moves under a successful call *)

Lemma effect_roles_adminRole e s c v s' :
  effect e s c v s' -> _roles_adminRole s' = _roles_adminRole s.
Proof. intros H. by effect_cases H. Qed.

Lemma effect_roles_members e s c v s' :
  effect e s c v s' ->
  _roles_members s' =
    match c with
    | GrantRole role a =>
        if hasRole role a s then _roles_members s
        else <[(role, a) := true]> (_roles_members s)
    | RevokeRole role a | RenounceRole role a =>
        if hasRole role a s then <[(role, a) := false]> (_roles_members s)
        else _roles_members s
    | _ => _roles_members s
    end.
Proof.
  intros H. destruct H; try reflexivity; unfold role_granted, role_revoked;
    match goal with |- context [hasRole ?r ?a s] => by destruct (hasRole r a s) end.
Qed.


Lemma effect_tokenURIs e s c v s' :
  effect e s c v s' ->
  _tokenURIs s' =
    match c, v with
    | IssueCertificate _ uri _ _, RetUint t => <[t := uri]> (_tokenURIs s)
    | _, _ => _tokenURIs s
    end.
Proof. intros H. by effect_cases H. Qed.

Lemma effect_tokenApprovals e s c v s' :
  effect e s c v s' ->
  _tokenApprovals s' =
    match c with
    | Approve to t => <[t := to]> (_tokenApprovals s)
    | _ => _tokenApprovals s
    end.
Proof. intros H. by effect_cases H. Qed.

Lemma effect_events e s c v s' :
  effect e s c v s' -> events s' = events s ++ emitted e s c v.
Proof.
  intros H. destruct H; unfold registered, minted, revoked, approved_for, operator_set,
    role_granted, role_revoked, log; cbn;
  try match goal with |- context [hasRole ?r ?a ?s] => destruct (hasRole r a s) end;
  cbn; rewrite <- ?app_assoc, ?app_nil_r; done.
Qed.

(** ** More invariants of reachable storage *)

Lemma ISSUER_ROLE_neq : ISSUER_ROLE ≠ DEFAULT_ADMIN_ROLE.
Proof. done. Qed.

(** The storage the constructor leaves. *)
Lemma deploy_eq e0 :
  deploy e0 =
    log (RoleGranted ISSUER_ROLE (msg_sender e0) (msg_sender e0))
      (set_roles_members <[(ISSUER_ROLE, msg_sender e0) := true]>
        (log (RoleGranted DEFAULT_ADMIN_ROLE (msg_sender e0) (msg_sender e0))
          (set_roles_members <[(DEFAULT_ADMIN_ROLE, msg_sender e0) := true]> State_empty))).
Proof.
  unfold deploy, transact, constructor, _grantRole. monad.
  assert (hasRole DEFAULT_ADMIN_ROLE (msg_sender e0) State_empty = false) as ->.
  { unfold hasRole. cbn. by rewrite lookup_empty. }
  cbn.
  match goal with |- context [hasRole ISSUER_ROLE ?a ?s] =>
    assert (hasRole ISSUER_ROLE a s = false) as -> end.
  { unfold hasRole. cbn. rewrite lookup_insert_ne, lookup_empty; [done|].
    intros H. by inversion H. }
  done.
Qed.

(** No call ever sets a role's admin: it stays [DEFAULT_ADMIN_ROLE]. *)
Lemma reaches_getRoleAdmin e0 h s role :
  reaches e0 h s -> getRoleAdmin role s = DEFAULT_ADMIN_ROLE.
Proof.
  intros Hreach. unfold getRoleAdmin.
  assert (_roles_adminRole s = ∅) as ->; [|by rewrite lookup_empty].
  revert h s Hreach. apply reaches_effect_ind.
  - by rewrite deploy_eq.
  - intros h s e c v s' _ IH Heff. by rewrite (effect_roles_adminRole _ _ _ _ _ Heff).
Qed.




(** Whoever holds a certificate is a registered participant. *)
Lemma reaches_recipient_registered e0 h s r t :
  reaches e0 h s -> (r, t) ∈ h -> isRegistered (participants_at r s) = true.
Proof.
  intros Hreach. revert h s Hreach r t.
  apply (reaches_effect_ind e0
    (fun h s => forall r t, (r, t) ∈ h -> isRegistered (participants_at r s) = true)).
  - by intros r t ?%elem_of_nil.
  - intros h s e c v s' _ IH Heff r t Hin.
    assert (isRegistered (participants_at r s) = true) as Hreg.
    { apply elem_of_app in Hin as [Hin|Hin]; [by eapply IH|].
      destruct (issued_cases c (Ok v)) as [Hi|(r' & t' & Hi)]; rewrite Hi in Hin.
      - by apply elem_of_nil in Hin.
      - apply list_elem_of_singleton in Hin. simplify_eq.
        by apply (effect_issued _ _ _ _ _ _ _ Heff Hi). }
    apply exec_effect in Heff.
    pose proof (exec_participant_stable e c s r Hreg) as Hst.
    rewrite Heff in Hst. cbn in Hst. by rewrite Hst.
Qed.

(** ** Roles *)

Lemma hasRole_insert role a role' a' b s :
  default false (<[(role', a') := b]> (_roles_members s) !! (role, a)) =
    if decide (role' = role /\ a' = a) then b else hasRole role a s.
Proof.
  unfold hasRole. destruct (decide (role' = role /\ a' = a)) as [[-> ->]|Hne].
  - by rewrite lookup_insert_eq.
  - rewrite lookup_insert_ne; [done|]. intros [= -> ->]. by apply Hne.
Qed.

Lemma hasRole_role_granted e role a s role' a' :
  hasRole role' a' (role_granted e role a s) =
    if decide (role = role' /\ a = a') then true else hasRole role' a' s.
Proof.
  unfold role_granted. destruct (hasRole role a s) eqn:Hhas.
  - destruct (decide _) as [[<- <-]|]; done.
  - unfold hasRole at 1, log. cbn. apply hasRole_insert.
Qed.

Lemma hasRole_role_revoked e role a s role' a' :
  hasRole role' a' (role_revoked e role a s) =
    if decide (role = role' /\ a = a') then false else hasRole role' a' s.
Proof.
  unfold role_revoked. destruct (hasRole role a s) eqn:Hhas.
  - unfold hasRole at 1, log. cbn. apply hasRole_insert.
  - destruct (decide _) as [[<- <-]|]; done.
Qed.

(** How one call can change one membership. *)
Lemma exec_hasRole_change e c s role a :
  getRoleAdmin role s = DEFAULT_ADMIN_ROLE ->
  hasRole role a (snd (exec e c s)) ≠ hasRole role a s ->
  (hasRole DEFAULT_ADMIN_ROLE (msg_sender e) s = true /\
   (c = GrantRole role a /\ hasRole role a (snd (exec e c s)) = true \/
    c = RevokeRole role a /\ hasRole role a (snd (exec e c s)) = false)) \/
  (c = RenounceRole role a /\ a = msg_sender e /\
   hasRole role a (snd (exec e c s)) = false).
Proof.
  intros Hadmin.
  destruct (exec e c s) as [r s'] eqn:Hexec. cbn.
  apply exec_cases in Hexec as [(err & -> & ->)|(v & -> & Heff)]; [done|].
  intros Hne.
  destruct Heff as [a1 n Hrole Hreg Hn
           |r uri hs co t' Hrole Hreg Huri Hh -> Hr Hex' Hrcv
           |t' Hrole Hex' Hrev
           |to t' Hex' Hto Hsender
           |op b Hop
           |role1 a1 Hrole
           |role1 a1 Hrole
           |role1 a1 ->]; try (by destruct Hne).
  - rewrite hasRole_role_granted in Hne |- *.
    destruct (decide _) as [[-> ->]|]; [|by destruct Hne].
    rewrite Hadmin in Hrole. left. by eauto.
  - rewrite hasRole_role_revoked in Hne |- *.
    destruct (decide _) as [[-> ->]|]; [|by destruct Hne].
    rewrite Hadmin in Hrole. left. by eauto.
  - rewrite hasRole_role_revoked in Hne |- *.
    destruct (decide _) as [[-> <-]|]; [|by destruct Hne].
    right. by eauto.
Qed.

Lemma deploy_hasRole e0 role a :
  hasRole role a (deploy e0) = true <->
  a = msg_sender e0 /\ (role = DEFAULT_ADMIN_ROLE \/ role = ISSUER_ROLE).
Proof.
  rewrite deploy_eq. unfold hasRole, log. cbn.
  destruct (decide (role = ISSUER_ROLE /\ a = msg_sender e0)) as [[-> ->]|Hne1].
  { rewrite lookup_insert_eq. cbn. split; [eauto|done]. }
  rewrite lookup_insert_ne by (intros [= <- <-]; by apply Hne1).
  destruct (decide (role = DEFAULT_ADMIN_ROLE /\ a = msg_sender e0)) as [[-> ->]|Hne2].
  { rewrite lookup_insert_eq. cbn. split; [eauto|done]. }
  rewrite lookup_insert_ne by (intros [= <- <-]; by apply Hne2).
  rewrite lookup_empty. cbn. split; [done|]. intros [-> [->| ->]]; tauto.
Qed.

(** X2: right after deployment the deployer, and nobody else, holds
    [DEFAULT_ADMIN_ROLE] and [ISSUER_ROLE]; no other role has a member, the
    constructor cannot revert, and the rest of storage is empty. *)
Theorem X2_constructor_roles e0 :
  fst (transact (constructor e0) State_empty) = Ok tt /\
  (forall role a,
     hasRole role a (deploy e0) = true <->
     a = msg_sender e0 /\ (role = DEFAULT_ADMIN_ROLE \/ role = ISSUER_ROLE)) /\
  _tokenIdCounter (deploy e0) = 0 /\
  (forall t, _exists t (deploy e0) = false) /\
  (forall a, isRegistered (participants_at a (deploy e0)) = false).
Proof.
  split_and!.
  - unfold transact, constructor, _grantRole. monad.
    destruct (hasRole DEFAULT_ADMIN_ROLE _ _); cbn;
      match goal with |- context [hasRole ?r ?a ?s] => by destruct (hasRole r a s) end.
  - apply deploy_hasRole.
  - by rewrite deploy_eq.
  - intros t. rewrite deploy_eq. unfold _exists, _ownerOf. cbn. by rewrite lookup_empty.
  - intros a. rewrite deploy_eq. unfold participants_at. cbn. by rewrite lookup_empty.
Qed.

(** X3: in every reachable state an account without [ISSUER_ROLE] is turned
    away from [registerParticipant] with the missing-role error; once an
    admin grants it the role, the grant succeeds, the account holds the role,
    and the same registration goes through. *)
Theorem X3_granted_issuer_can_register e0 h s ea eb p n :
  reaches e0 h s ->
  hasRole DEFAULT_ADMIN_ROLE (msg_sender ea) s = true ->
  hasRole ISSUER_ROLE (msg_sender eb) s = false ->
  isRegistered (participants_at p s) = false ->
  nonempty n = true ->
  fst (exec eb (RegisterParticipant p n) s)
    = Revert (MissingRole (msg_sender eb) ISSUER_ROLE) /\
  fst (exec ea (GrantRole ISSUER_ROLE (msg_sender eb)) s) = Ok RetUnit /\
  let s1 := snd (exec ea (GrantRole ISSUER_ROLE (msg_sender eb)) s) in
  hasRole ISSUER_ROLE (msg_sender eb) s1 = true /\
  exec eb (RegisterParticipant p n) s1 = (Ok RetUnit, registered eb p n s1).
Proof.
  intros Hreach Hadmin Hno Hfresh Hn.
  split; [by rewrite exec_register, Hno|].
  rewrite exec_grantRole, (reaches_getRoleAdmin _ _ _ _ Hreach), Hadmin. cbn.
  split; [done|].
  assert (hasRole ISSUER_ROLE (msg_sender eb) (role_granted ea ISSUER_ROLE (msg_sender eb) s)
          = true) as Hhas.
  { rewrite hasRole_role_granted. by rewrite decide_True. }
  split; [done|].
  rewrite exec_register, Hhas. cbn.
  assert (participants_at p (role_granted ea ISSUER_ROLE (msg_sender eb) s)
          = participants_at p s) as ->.
  { unfold role_granted. by rewrite Hno. }
  by rewrite Hfresh, Hn.
Qed.

Lemma X3_granted_issuer_can_register_witness :
  fst (exec (Scenario.env Scenario.bob 1700000100)
         (RegisterParticipant Scenario.alice "Alice") Scenario.s0)
    = Revert (MissingRole Scenario.bob ISSUER_ROLE) /\
  fst (exec (Scenario.env Scenario.deployer 1700000050)
         (GrantRole ISSUER_ROLE Scenario.bob) Scenario.s0) = Ok RetUnit.
Proof.
  destruct (X3_granted_issuer_can_register Scenario.e0 [] Scenario.s0
              (Scenario.env Scenario.deployer 1700000050)
              (Scenario.env Scenario.bob 1700000100) Scenario.alice "Alice")
    as (Hbefore & Hgrant & _).
  - apply reaches_deploy.
  - vm_compute; reflexivity.
  - vm_compute; reflexivity.
  - vm_compute; reflexivity.
  - vm_compute; reflexivity.
  - exact (conj Hbefore Hgrant).
Defined.



(** X5: once no account holds [DEFAULT_ADMIN_ROLE], no call can ever give
    any role to any account again: from then on memberships only shrink. *)
Theorem X5_no_admin_no_grant e0 h s s' role a :
  reaches e0 h s ->
  (forall b, hasRole DEFAULT_ADMIN_ROLE b s = false) ->
  later s s' ->
  hasRole role a s' = true ->
  hasRole role a s = true.
Proof.
  intros Hreach Hnone Hlater.
  assert ((forall b, hasRole DEFAULT_ADMIN_ROLE b s' = false) /\
          (hasRole role a s' = true -> hasRole role a s = true) /\
          forall role', getRoleAdmin role' s' = DEFAULT_ADMIN_ROLE) as (_ & H & _);
    [|done].
  induction Hlater as [s|s s1 e c r s2 _ IH Hexec].
  - split_and!; [done..|]. intros role'. by eapply reaches_getRoleAdmin.
  - destruct (IH Hreach Hnone) as (Hnone1 & Hmono & Hadm).
    assert (forall role' b, hasRole role' b s2 = true -> hasRole role' b s1 = true) as Hstep.
    { intros role' b Hb.
      destruct (hasRole role' b s1) eqn:Hb1; [done|]. exfalso.
      pose proof (exec_hasRole_change e c s1 role' b (Hadm role')) as Hch.
      rewrite Hexec in Hch. cbn in Hch.
      destruct Hch as [(Hadmin & _)|(_ & _ & Hfalse)]; [congruence| |congruence].
      by rewrite Hnone1 in Hadmin. }
    split_and!.
    + intros b. destruct (hasRole DEFAULT_ADMIN_ROLE b s2) eqn:Hb; [|done].
      apply Hstep in Hb. by rewrite Hnone1 in Hb.
    + intros Hb. apply Hmono. by apply Hstep.
    + intros role'. unfold getRoleAdmin.
      apply exec_cases in Hexec as [(err & -> & ->)|(v & -> & Heff)]; [apply Hadm|].
      rewrite (effect_roles_adminRole _ _ _ _ _ Heff). apply Hadm.
Qed.

Lemma X5_no_admin_no_grant_witness :
  let s := snd (exec (Scenario.env Scenario.deployer 1700000010)
                  (RenounceRole DEFAULT_ADMIN_ROLE Scenario.deployer) Scenario.s0) in
  (forall b, hasRole DEFAULT_ADMIN_ROLE b s = false) /\
  hasRole ISSUER_ROLE Scenario.deployer s = true.
Proof.
  intros s.
  assert (reaches Scenario.e0 [] s) as Hreach.
  { apply (reaches_run Scenario.e0
             [(Scenario.env Scenario.deployer 1700000010,
               RenounceRole DEFAULT_ADMIN_ROLE Scenario.deployer)] [] Scenario.s0);
      [apply reaches_deploy|]. vm_compute. reflexivity. }
  assert (forall b, hasRole DEFAULT_ADMIN_ROLE b s = false) as Hnone.
  { intros b. subst s. rewrite exec_renounceRole. cbn [negb Z.eqb fst snd].
    change (snd _) with
      (role_revoked (Scenario.env Scenario.deployer 1700000010) DEFAULT_ADMIN_ROLE
         Scenario.deployer Scenario.s0).
    rewrite hasRole_role_revoked.
    destruct (decide _) as [_|Hne]; [done|].
    destruct (hasRole DEFAULT_ADMIN_ROLE b Scenario.s0) eqn:Hb; [|done].
    apply deploy_hasRole in Hb as [-> _]. exfalso. by apply Hne. }
  split; [exact Hnone|].
  apply (X5_no_admin_no_grant Scenario.e0 [] s
           (snd (exec (Scenario.env Scenario.bob 1700000020)
                   (GrantRole ISSUER_ROLE Scenario.bob) s))
           ISSUER_ROLE Scenario.deployer Hreach Hnone).
  - eapply later_call; [apply later_now|]. apply surjective_pairing.
  - vm_compute. reflexivity.
Defined.

(** ** Read-only functions on reachable storage *)

Lemma locked_eq t s :
  locked t s =
    if _exists t s then (Ok true, s) else (Revert (Reason "Token does not exist"), s).
Proof. unfold locked. monad. by destruct (_exists t s). Qed.

(** X1: in every reachable state [locked(t)] returns true exactly for the
    ids that were issued, revoked or not, and reverts with "Token does not
    exist" for every other id. *)
Theorem X1_locked e0 h s t :
  reaches e0 h s ->
  (t ∈ issued_ids h -> locked t s = (Ok true, s)) /\
  (t ∉ issued_ids h ->
   locked t s = (Revert (Reason "Token does not exist"), s) /\
   fails_with NotFound (fst (locked t s))).
Proof.
  intros Hreach. rewrite locked_eq. split.
  - intros Hin. apply (reaches_exists _ _ _ _ Hreach) in Hin. by rewrite Hin.
  - intros Hnot. destruct (_exists t s) eqn:Hex; [|done].
    by apply (reaches_exists _ _ _ _ Hreach) in Hex.
Qed.

Lemma X1_locked_witness :
  locked 1 Scenario.s3 = (Ok true, Scenario.s3) /\
  locked 999 Scenario.s3 = (Revert (Reason "Token does not exist"), Scenario.s3).
Proof.
  split.
  - destruct (X1_locked Scenario.e0 [(Scenario.alice, 1)] Scenario.s3 1 reaches_s3)
      as (Hin & _).
    apply Hin. cbn. by apply list_elem_of_singleton.
  - destruct (X1_locked Scenario.e0 [(Scenario.alice, 1)] Scenario.s3 999 reaches_s3)
      as (_ & Hout).
    destruct Hout as [Heq _]; [|exact Heq].
    cbn. intros Hin%list_elem_of_singleton. lia.
Defined.




Lemma tokenURI_eq t s :
  tokenURI t s =
    if _exists t s then (Ok (default EmptyString (_tokenURIs s !! t)), s)
    else (Revert (Reason "ERC721: invalid token ID"), s).
Proof. unfold tokenURI, _requireMinted. monad. by destruct (_exists t s). Qed.

(** The stored URI of an existing token is never written again. *)
Lemma exec_tokenURI_stable e c s r s' t :
  exec e c s = (r, s') -> _exists t s = true -> _tokenURIs s' !! t = _tokenURIs s !! t.
Proof.
  intros Hexec Hex.
  apply exec_cases in Hexec as [(err & -> & ->)|(v & -> & Heff)]; [done|].
  rewrite (effect_tokenURIs _ _ _ _ _ Heff).
  destruct c as [a' n|r uri h co|t'|to t'|op b|from to t'|from to t'|from to t' data
                |role a'|role a'|role a']; try done.
  destruct v as [|t']; [done|].
  destruct (effect_issued _ _ _ _ _ r t' Heff) as (_ & _ & Hfresh & _); [done|].
  rewrite lookup_insert_ne; [done|]. intros ->. congruence.
Qed.

Lemma later_tokenURI_stable s s' t :
  later s s' -> _exists t s = true -> _tokenURIs s' !! t = _tokenURIs s !! t.
Proof.
  induction 1 as [s|s s1 e c r s2 Hlater IH Hexec]; [done|].
  intros Hex. rewrite <- (IH Hex).
  apply (exec_tokenURI_stable _ _ _ _ _ _ Hexec).
  by apply (later_token_stable _ _ _ Hlater Hex).
Qed.

(** X7: [tokenURI] reads back what [issueCertificate] stored: after
    [issueCertificate(r, uri, hash, cohort)] returns [t], [tokenURI(t)]
    returns [uri] in every later state, revoked or not.  For an id that was
    never issued it reverts with "ERC721: invalid token ID". *)
Theorem X7_tokenURI_round_trip e0 h s :
  reaches e0 h s ->
  (forall t, t ∉ issued_ids h ->
     tokenURI t s = (Revert (Reason "ERC721: invalid token ID"), s)) /\
  (forall e r uri hash co t s1 s2,
     exec e (IssueCertificate r uri hash co) s = (Ok (RetUint t), s1) ->
     later s1 s2 ->
     tokenURI t s2 = (Ok uri, s2)).
Proof.
  intros Hreach. split.
  - intros t Hnot. rewrite tokenURI_eq.
    destruct (_exists t s) eqn:Hex; [|done].
    by apply (reaches_exists _ _ _ _ Hreach) in Hex.
  - intros e r uri hash co t s1 s2 Hissue Hlater.
    apply exec_effect in Hissue.
    inversion Hissue as [|r' uri' h' co' t' Hrole Hreg Huri Hh Ht Hr Hex Hrcv| | | | | |];
      subst.
    destruct (minted_token e r uri hash co
                ((_tokenIdCounter s + 1) mod UINT256_MOD) s Hr) as (Hex1 & _ & _).
    destruct (later_token_stable _ _ _ Hlater Hex1) as (Hex2 & _).
    rewrite tokenURI_eq, Hex2, (later_tokenURI_stable _ _ _ Hlater Hex1).
    unfold minted, log. cbn. by rewrite lookup_insert_eq.
Qed.

Lemma X7_tokenURI_round_trip_witness :
  tokenURI 1 Scenario.s3 = (Ok "ipfs://X", Scenario.s3) /\
  tokenURI 7 Scenario.s1 = (Revert (Reason "ERC721: invalid token ID"), Scenario.s1).
Proof.
  destruct (X7_tokenURI_round_trip Scenario.e0 [] Scenario.s1 reaches_s1)
    as (Hnone & Hround).
  split.
  - apply (Hround (Scenario.env Scenario.deployer 1700000200) Scenario.alice
             "ipfs://X" "sha256:deadbeef" "2024-Q1" 1 Scenario.s2 Scenario.s3).
    + vm_compute. reflexivity.
    + apply (later_call _ Scenario.s2 (Scenario.env Scenario.deployer 1700000300)
               (RevokeCertificate 1) (Ok RetUnit)); [apply later_now|].
      vm_compute. reflexivity.
  - apply Hnone. cbn. by intros ?%elem_of_nil.
Defined.

(** ** The event log *)






(** X18: no call rewrites or removes what was logged: the log before a call
    is a prefix of the log after it, and so of the log in every later state. *)
Theorem X18_log_append_only s s' :
  later s s' -> events s `prefix_of` events s'.
Proof.
  induction 1 as [s|s s1 e c r s2 _ IH Hexec]; [done|].
  etrans; [exact IH|].
  apply exec_cases in Hexec as [(err & -> & ->)|(v & -> & Heff)]; [done|].
  rewrite (effect_events _ _ _ _ _ Heff). by apply prefix_app_r.
Qed.

Lemma X18_log_append_only_witness :
  events Scenario.s2 `prefix_of` events Scenario.s3.
Proof.
  apply X18_log_append_only.
  apply (later_call _ Scenario.s2 (Scenario.env Scenario.deployer 1700000300)
           (RevokeCertificate 1) (Ok RetUnit)); [apply later_now|].
  vm_compute. reflexivity.
Defined.

(** ** Issuing *)

(** X10: in every reachable state the owner of every existing token is a
    registered participant and not the zero address. *)
Theorem X10_owner_is_registered e0 h s t :
  reaches e0 h s ->
  _exists t s = true ->
  isRegistered (participants_at (_ownerOf t s) s) = true /\
  _ownerOf t s ≠ address_0.
Proof.
  intros Hreach Hex.
  destruct (reaches_owners _ _ _ Hreach) as (Ho & Hnz & _).
  apply _exists_lookup in Hex as (o & Hlk & Ho0).
  unfold _ownerOf. rewrite Hlk. cbn. split; [|done].
  apply Ho in Hlk. by eapply reaches_recipient_registered.
Qed.

Lemma X10_owner_is_registered_witness :
  isRegistered (participants_at (_ownerOf 1 Scenario.s3) Scenario.s3) = true.
Proof.
  destruct (X10_owner_is_registered Scenario.e0 [(Scenario.alice, 1)] Scenario.s3 1
              reaches_s3) as (Hreg & _).
  - vm_compute. reflexivity.
  - exact Hreg.
Defined.



(** X12: the zero address can be registered like any other, but it can
    never be issued a certificate: [issueCertificate] to it reverts in every
    state, and when every other check passes the revert is the library's
    "ERC721: mint to the zero address". *)
Theorem X12_zero_address e s uri hash co n :
  hasRole ISSUER_ROLE (msg_sender e) s = true ->
  (exists err, exec e (IssueCertificate address_0 uri hash co) s = (Revert err, s)) /\
  (isRegistered (participants_at address_0 s) = false -> nonempty n = true ->
   exec e (RegisterParticipant address_0 n) s = (Ok RetUnit, registered e address_0 n s)) /\
  (isRegistered (participants_at address_0 s) = true ->
   nonempty uri = true -> nonempty hash = true ->
   exec e (IssueCertificate address_0 uri hash co) s
     = (Revert (Reason "ERC721: mint to the zero address"), s)).
Proof.
  intros Hrole. rewrite exec_issue, exec_register, Hrole. cbn. split_and!.
  - destruct (negb (isRegistered _)); [eauto|].
    destruct (negb (nonempty uri)); [eauto|].
    destruct (negb (nonempty hash)); eauto.
  - by intros -> ->.
  - by intros -> -> ->.
Qed.

Lemma X12_zero_address_witness :
  exists err,
    exec (Scenario.env Scenario.deployer 1700000200)
      (IssueCertificate address_0 "ipfs://Z" "hash" "cohort") Scenario.s1
    = (Revert err, Scenario.s1).
Proof.
  destruct (X12_zero_address (Scenario.env Scenario.deployer 1700000200) Scenario.s1
              "ipfs://Z" "hash" "cohort" "Nobody") as (Hnever & _).
  - vm_compute. reflexivity.
  - exact Hnever.
Defined.

(** ** Revoking and approving *)

(** X13: a successful [revokeCertificate(t)] changes what
    [verifyCertificate(t)] reports and nothing else that can be read: owners,
    locks, token URIs, balances, the reverse index, roles, participants, the
    counter and the verification of every other id are as before. *)
Theorem X13_revoke_changes_validity_only e t s s' :
  exec e (RevokeCertificate t) s = (Ok RetUnit, s') ->
  (forall t', fst (ownerOf t' s') = fst (ownerOf t' s)) /\
  (forall t', fst (locked t' s') = fst (locked t' s)) /\
  (forall t', fst (tokenURI t' s') = fst (tokenURI t' s)) /\
  (forall a, fst (balanceOf a s') = fst (balanceOf a s)) /\
  (forall a, fst (getParticipantCertificates a s') = fst (getParticipantCertificates a s)) /\
  (forall role a, hasRole role a s' = hasRole role a s) /\
  (forall a, participants_at a s' = participants_at a s) /\
  _tokenIdCounter s' = _tokenIdCounter s /\
  (forall t', t' ≠ t -> fst (verifyCertificate t' s') = fst (verifyCertificate t' s)) /\
  fst (verifyCertificate t s') =
    Ok (false, recipient (certificates_at t s), contentHash (certificates_at t s),
        cohort (certificates_at t s), issuedAt (certificates_at t s)).
Proof.
  intros Hexec. rewrite exec_revoke in Hexec.
  destruct (negb (hasRole _ _ s)); [done|].
  destruct (_exists t s) eqn:Hex; [|done]. cbn in Hexec.
  destruct (isRevoked (certificates_at t s)) eqn:Hrev; [done|].
  injection Hexec as <-.
  split_and!; try (intros; reflexivity).
  - intros t'. rewrite !ownerOf_eq.
    change (_exists t' (revoked e t s)) with (_exists t' s). by destruct (_exists t' s).
  - intros t'. rewrite !locked_eq.
    change (_exists t' (revoked e t s)) with (_exists t' s). by destruct (_exists t' s).
  - intros t'. rewrite !tokenURI_eq.
    change (_exists t' (revoked e t s)) with (_exists t' s). by destruct (_exists t' s).
  - intros a. unfold balanceOf. monad. by destruct (a =? address_0).
  - intros t' Hne. rewrite !verifyCertificate_eq. cbn.
    change (_exists t' (revoked e t s)) with (_exists t' s).
    assert (certificates_at t' (revoked e t s) = certificates_at t' s) as ->; [|done].
    unfold certificates_at, revoked, log. cbn. by rewrite lookup_insert_ne.
  - rewrite verifyCertificate_eq. cbn.
    change (_exists t (revoked e t s)) with (_exists t s). rewrite Hex.
    assert (certificates_at t (revoked e t s) = mark_revoked (certificates_at t s)) as ->;
      [|done].
    unfold certificates_at, revoked, log. cbn. by rewrite lookup_insert_eq.
Qed.

Lemma X13_revoke_changes_validity_only_witness :
  fst (ownerOf 1 Scenario.s3) = fst (ownerOf 1 Scenario.s2) /\
  fst (verifyCertificate 1 Scenario.s3)
    = Ok (false, Scenario.alice, "sha256:deadbeef", "2024-Q1", 1700000200).
Proof.
  destruct (X13_revoke_changes_validity_only (Scenario.env Scenario.deployer 1700000300)
              1 Scenario.s2 Scenario.s3) as (Hown & _ & _ & _ & _ & _ & _ & _ & _ & Hver).
  - vm_compute. reflexivity.
  - split; [exact (Hown 1)|]. rewrite Hver. vm_compute. reflexivity.
Defined.

Lemma getApproved_eq t s :
  getApproved t s =
    if _exists t s then (Ok (default address_0 (_tokenApprovals s !! t)), s)
    else (Revert (Reason "ERC721: invalid token ID"), s).
Proof. unfold getApproved, _requireMinted. monad. by destruct (_exists t s). Qed.

(** X14: an approval can be recorded but moves nothing: after a successful
    [approve(to, t)], [getApproved(t)] returns [to] and the owner is
    unchanged, and a [transferFrom] of [t] by the approved address, from the
    owner to any non-zero address, still reverts with
    "Certificates are non-transferable". *)
Theorem X14_approval_confers_nothing e to t s s1 :
  exec e (Approve to t) s = (Ok RetUnit, s1) ->
  getApproved t s1 = (Ok to, s1) /\
  _ownerOf t s1 = _ownerOf t s /\
  (forall e' to',
     msg_sender e' = to -> to' ≠ address_0 ->
     exec e' (TransferFrom (_ownerOf t s1) to' t) s1
       = (Revert (Reason "Certificates are non-transferable"), s1)).
Proof.
  intros Hexec. rewrite exec_approve in Hexec.
  destruct (_exists t s) eqn:Hex; [|done]. cbn in Hexec.
  destruct (to =? _ownerOf t s); [done|].
  destruct (negb _); [done|].
  injection Hexec as <-.
  assert (_exists t (approved_for to t s) = true) as Hex1 by done.
  assert (default address_0 (_tokenApprovals (approved_for to t s) !! t) = to) as Happ.
  { unfold approved_for, log. cbn. by rewrite lookup_insert_eq. }
  split_and!.
  - by rewrite getApproved_eq, Hex1, Happ.
  - done.
  - intros e' to' Hsender Hto.
    rewrite exec_transferFrom. unfold transfer_error, is_approved_or_owner.
    rewrite Hex1, Happ, Hsender, !Z.eqb_refl, orb_true_r. cbn.
    apply Z.eqb_neq in Hto. by rewrite Hto.
Qed.

Lemma X14_approval_confers_nothing_witness :
  let s := snd (exec (Scenario.env Scenario.alice 1700000250)
                  (Approve Scenario.bob 1) Scenario.s2) in
  getApproved 1 s = (Ok Scenario.bob, s) /\
  exec (Scenario.env Scenario.bob 1700000260)
    (TransferFrom Scenario.alice Scenario.bob 1) s
    = (Revert (Reason "Certificates are non-transferable"), s).
Proof.
  intros s.
  destruct (X14_approval_confers_nothing (Scenario.env Scenario.alice 1700000250)
              Scenario.bob 1 Scenario.s2 s) as (Hget & _ & Htr).
  - vm_compute. reflexivity.
  - split; [exact Hget|].
    apply (Htr (Scenario.env Scenario.bob 1700000260) Scenario.bob).
    + reflexivity.
    + vm_compute. discriminate.
Defined.



(** ** Participants *)

Lemma reaches_registered_log e0 h s :
  reaches e0 h s ->
  (forall a n ts,
     (a, (n, ts)) ∈ registered_log (events s) <->
     participants s !! a = Some (mkParticipant n ts true)) /\
  (forall a p, participants s !! a = Some p -> isRegistered p = true /\ nonempty (name p) = true).
Proof.
  revert h s. apply reaches_effect_ind.
  - rewrite deploy_eq. cbn. split.
    + intros a n ts. rewrite lookup_empty. split; [by intros ?%elem_of_nil|done].
    + intros a p. by rewrite lookup_empty.
  - intros h s e c v s' _ [IHl IHp] Heff.
    rewrite (effect_events _ _ _ _ _ Heff), (effect_participants _ _ _ _ _ Heff).
    unfold registered_log in *. rewrite omap_app.
    destruct Heff as [a1 n1 Hrole Hreg Hn
           |r uri hs co t' Hrole Hreg Huri Hh -> Hr Hex' Hrcv
           |t' Hrole Hex' Hrev
           |to t' Hex' Hto Hsender
           |op b Hop
           |role a1 Hrole
           |role a1 Hrole
           |role a1 ->]; cbn;
      try (rewrite app_nil_r; done);
      try (match goal with |- context [hasRole ?r ?a ?s] => destruct (hasRole r a s) end;
           cbn; rewrite app_nil_r; done).
    assert (participants s !! a1 = None) as Hnone.
    { unfold participants_at in Hreg. destruct (participants s !! a1) as [p|] eqn:Hp; [|done].
      apply IHp in Hp as [Hp _]. cbn in Hreg. congruence. }
    split.
    + intros a n ts. rewrite elem_of_app, list_elem_of_singleton.
      destruct (decide (a = a1)) as [->|Hne].
      * rewrite lookup_insert_eq. split.
        -- intros [Hin|Heq]; [|by simplify_eq]. apply IHl in Hin. congruence.
        -- intros [= -> ->]. by right.
      * rewrite lookup_insert_ne by done. rewrite IHl. split; [|by left].
        intros [?|Heq]; [done|by simplify_eq].
    + intros a p. destruct (decide (a = a1)) as [->|Hne].
      * rewrite lookup_insert_eq. by intros [= <-].
      * rewrite lookup_insert_ne by done. apply IHp.
Qed.

(** X15: in every reachable state an address is registered exactly when the
    log holds a [ParticipantRegistered] event for it, whose name and
    timestamp are the ones stored; every stored name is non-empty. *)
Theorem X15_log_records_registrations e0 h s a :
  reaches e0 h s ->
  (isRegistered (participants_at a s) = true <->
   exists n ts, (a, (n, ts)) ∈ registered_log (events s)) /\
  (forall n ts,
     (a, (n, ts)) ∈ registered_log (events s) ->
     participants_at a s = mkParticipant n ts true /\ nonempty n = true).
Proof.
  intros Hreach. destruct (reaches_registered_log _ _ _ Hreach) as (Hl & Hp).
  split.
  - unfold participants_at. split.
    + destruct (participants s !! a) as [[n ts b]|] eqn:Hlk; [|done]. cbn. intros ->.
      exists n, ts. by apply Hl.
    + intros (n & ts & Hin). apply Hl in Hin. by rewrite Hin.
  - intros n ts Hin. apply Hl in Hin. unfold participants_at. rewrite Hin. cbn.
    split; [done|]. by apply Hp in Hin as [_ ?].
Qed.

Lemma X15_log_records_registrations_witness :
  isRegistered (participants_at Scenario.alice Scenario.s3) = true <->
  exists n ts, (Scenario.alice, (n, ts)) ∈ registered_log (events Scenario.s3).
Proof.
  destruct (X15_log_records_registrations Scenario.e0 [(Scenario.alice, 1)] Scenario.s3
              Scenario.alice reaches_s3) as (Hiff & _).
  exact Hiff.
Defined.

(** * The client code: proofs *)

(** ** utils/ipfs.ts *)

(** One byte becomes its two hexadecimal digits, high one first. *)
Lemma byte_hex_eq b :
  JS.padStart (JS.toString16 (Byte.to_N b)) 2 (JS.str "0") =
    [JS.hex_digit (Byte.to_N b / 16); JS.hex_digit (Byte.to_N b mod 16)].
Proof. destruct b; vm_compute; reflexivity. Qed.

(** The two digits read back as the byte. *)
Lemma byte_unhex b :
  Ipfs.unhex_digit (JS.hex_digit (Byte.to_N b / 16)) = Some (Byte.to_N b / 16)%N /\
  Ipfs.unhex_digit (JS.hex_digit (Byte.to_N b mod 16)) = Some (Byte.to_N b mod 16)%N /\
  Byte.of_N (16 * (Byte.to_N b / 16) + Byte.to_N b mod 16) = Some b.
Proof. destruct b; vm_compute; repeat split. Qed.

Lemma hashHex_cons b bs :
  Ipfs.hashHex (b :: bs) =
    JS.hex_digit (Byte.to_N b / 16) :: JS.hex_digit (Byte.to_N b mod 16) :: Ipfs.hashHex bs.
Proof. unfold Ipfs.hashHex. cbn [map concat]. by rewrite byte_hex_eq. Qed.

Lemma hashHex_length bs : length (Ipfs.hashHex bs) = (2 * length bs)%nat.
Proof.
  induction bs as [|b bs IH]; [done|]. rewrite hashHex_cons. cbn [length]. rewrite IH. lia.
Qed.

Lemma hashHex_digits bs : Forall (fun c => is_Some (Ipfs.unhex_digit c)) (Ipfs.hashHex bs).
Proof.
  induction bs as [|b bs IH]; [constructor|]. rewrite hashHex_cons.
  destruct (byte_unhex b) as (Hh & Hl & _).
  constructor; [by rewrite Hh|]. constructor; [by rewrite Hl|done].
Qed.

Lemma unhex_hashHex bs fuel :
  (length bs <= fuel)%nat -> Ipfs.unhex fuel (Ipfs.hashHex bs) = Some bs.
Proof.
  revert fuel. induction bs as [|b bs IH]; intros fuel Hfuel.
  - by destruct fuel.
  - destruct fuel as [|fuel]; [cbn in Hfuel; lia|].
    rewrite hashHex_cons. cbn [Ipfs.unhex].
    destruct (byte_unhex b) as (-> & -> & ->).
    rewrite IH; [done|]. cbn in Hfuel. lia.
Qed.

(** X16: the hexadecimal rendering of a digest in [computeSHA256] has two
    characters per byte, all of them digits or lowercase [a]-[f], reads back
    as the bytes it came from, and is therefore different for different
    digests. *)
Theorem X16_hashHex_faithful bs :
  length (Ipfs.hashHex bs) = (2 * length bs)%nat /\
  Forall (fun c => is_Some (Ipfs.unhex_digit c)) (Ipfs.hashHex bs) /\
  Ipfs.unhex (length bs) (Ipfs.hashHex bs) = Some bs /\
  (forall bs', Ipfs.hashHex bs' = Ipfs.hashHex bs -> bs' = bs).
Proof.
  split_and!.
  - apply hashHex_length.
  - apply hashHex_digits.
  - by apply unhex_hashHex.
  - intros bs' Heq.
    assert (length bs' = length bs) as Hlen.
    { pose proof (hashHex_length bs'). pose proof (hashHex_length bs).
      rewrite Heq in *. lia. }
    pose proof (unhex_hashHex bs' (length bs)) as H1.
    rewrite Heq, unhex_hashHex in H1 by lia. symmetry. apply (inj Some). apply H1. lia.
Qed.

Lemma nonempty_to_solidity s : s ≠ [] -> nonempty (Ipfs.to_solidity s) = true.
Proof. by destruct s. Qed.





(** ** components/CertificateManager.tsx, hooks/useWallet.ts: display helpers *)

Lemma startsWith_app (p s : list ascii) : JS.startsWith (p ++ s) p = true.
Proof.
  induction p as [|c p IH]; [by destruct s|]. cbn. by rewrite bool_decide_eq_true_2.
Qed.

Lemma startsWith_inv (s p : list ascii) :
  JS.startsWith s p = true -> exists r, s = p ++ r.
Proof.
  revert s. induction p as [|c p IH]; intros s H; [by exists s|].
  destruct s as [|d s]; [done|]. cbn in H.
  apply andb_true_iff in H as [Hc Hs]. apply bool_decide_eq_true in Hc as ->.
  destruct (IH _ Hs) as [r ->]. by exists r.
Qed.

Lemma replace_startsWith (s pat rep : list ascii) :
  JS.startsWith s pat = true -> JS.replace s pat rep = rep ++ drop (length pat) s.
Proof. intros H. destruct s; cbn -[JS.startsWith]; by rewrite H. Qed.

Lemma replace_prefix (p rep s : list ascii) :
  JS.replace (p ++ s) p rep = rep ++ s.
Proof. by rewrite replace_startsWith, drop_app_length by apply startsWith_app. Qed.

Lemma ipfsToHttps_prefix (cid : list ascii) :
  Manager.ipfsToHttps (JS.str "ipfs://" ++ cid) = JS.str "https://ipfs.io/ipfs/" ++ cid.
Proof. unfold Manager.ipfsToHttps. by rewrite startsWith_app, replace_prefix. Qed.

Lemma ipfsToHttps_gateway (cid : list ascii) :
  Manager.ipfsToHttps (JS.str "https://ipfs.io/ipfs/" ++ cid)
  = JS.str "https://ipfs.io/ipfs/" ++ cid.
Proof. reflexivity. Qed.

(** X20: [ipfsToHttps] turns "ipfs://" followed by a content id into the
    gateway address "https://ipfs.io/ipfs/" followed by the same id, and
    returns every other address unchanged; applying it twice is the same
    as applying it once. *)
Theorem X20_ipfsToHttps (uri : list ascii) :
  ((exists cid, uri = JS.str "ipfs://" ++ cid /\
      Manager.ipfsToHttps uri = JS.str "https://ipfs.io/ipfs/" ++ cid)
   \/ (JS.startsWith uri (JS.str "ipfs://") = false /\ Manager.ipfsToHttps uri = uri))
  /\ Manager.ipfsToHttps (Manager.ipfsToHttps uri) = Manager.ipfsToHttps uri.
Proof.
  destruct (JS.startsWith uri (JS.str "ipfs://")) eqn:Hs.
  - apply startsWith_inv in Hs as [cid ->]. rewrite !ipfsToHttps_prefix. split.
    + left. by exists cid.
    + apply ipfsToHttps_gateway.
  - assert (Manager.ipfsToHttps uri = uri) as Hid.
    { unfold Manager.ipfsToHttps. by rewrite Hs. }
    rewrite !Hid. split; [by right|done].
Qed.

Lemma slice_0 (s : list ascii) (n : Z) :
  0 <= n -> JS.slice s 0 n = take (Z.to_nat n) s.
Proof.
  intros Hn. unfold JS.slice, JS.rel_index.
  replace (0 <? 0) with false by done.
  destruct (n <? 0) eqn:Hlt; [lia|].
  replace (Z.to_nat (0 `min` Z.of_nat (length s))) with 0%nat by lia.
  rewrite drop_0, Nat.sub_0_r.
  destruct (decide (n <= Z.of_nat (length s))).
  - by replace (n `min` Z.of_nat (length s)) with n by lia.
  - replace (n `min` Z.of_nat (length s)) with (Z.of_nat (length s)) by lia.
    rewrite Nat2Z.id. by rewrite !take_ge by lia.
Qed.

Lemma slice_from_neg (s : list ascii) (n : Z) :
  0 < n -> JS.slice_from s (- n) = drop (length s - Z.to_nat n) s.
Proof.
  intros Hn. unfold JS.slice_from, JS.rel_index.
  destruct (- n <? 0) eqn:Hlt; [|lia]. f_equal. lia.
Qed.

Lemma slice_from_0 (s : list ascii) : JS.slice_from s 0 = s.
Proof.
  unfold JS.slice_from, JS.rel_index. replace (0 <? 0) with false by done.
  by replace (Z.to_nat (0 `min` Z.of_nat (length s))) with 0%nat by lia.
Qed.

(** X21: for an address longer than [prefixLength + suffixLength],
    [formatAddress] returns its first [prefixLength] characters, three
    dots and its last [suffixLength] characters, [prefixLength + 3 +
    suffixLength] characters in all (so up to two more than the input).
    With [suffixLength = 0] the whole address follows the dots, since
    [slice(-0)] is [slice(0)]. *)
Theorem X21_formatAddress (address : list ascii) (p s : Z) :
  0 <= p -> 0 <= s -> p + s < Z.of_nat (length address) ->
  Wallet.formatAddress address p s
    = take (Z.to_nat p) address ++ JS.str "..."
      ++ (if s =? 0 then address else drop (length address - Z.to_nat s) address)
  /\ (0 < s -> Z.of_nat (length (Wallet.formatAddress address p s)) = p + 3 + s).
Proof.
  intros Hp Hs Hlen. unfold Wallet.formatAddress.
  destruct (_ <=? _) eqn:Hle; [lia|]. rewrite slice_0 by done.
  destruct (s =? 0) eqn:Hs0.
  - apply Z.eqb_eq in Hs0 as ->. change (- 0) with 0. rewrite slice_from_0.
    split; [done|lia].
  - rewrite slice_from_neg by lia. split; [done|]. intros _.
    rewrite !length_app, length_take, length_drop. cbn. lia.
Qed.

Lemma X21_formatAddress_witness :
  Wallet.formatAddress (JS.str "0x70997970C51812dc3A010C7d01b50e0d17dc79C8") 6 4
    = JS.str "0x7099...79C8".
Proof.
  destruct (X21_formatAddress (JS.str "0x70997970C51812dc3A010C7d01b50e0d17dc79C8") 6 4)
    as [H _]; [lia|lia|vm_compute; reflexivity|].
  rewrite H. vm_compute. reflexivity.
Defined.

(** X22: the [formatAddress] local to ConnectWallet.tsx, which has no length
    check, gives the same text as the hook's [formatAddress] with its
    default lengths exactly for the addresses of more than ten characters. *)
Theorem X22_formatAddress_variants (addr : list ascii) :
  Wallet.ConnectWallet_formatAddress addr = Wallet.formatAddress_default addr
  <-> (10 < length addr)%nat.
Proof.
  unfold Wallet.formatAddress_default, Wallet.formatAddress,
    Wallet.ConnectWallet_formatAddress.
  destruct (_ <=? _) eqn:Hle; split; try done; try lia.
  intros Heq. apply (f_equal length) in Heq.
  change (-4) with (- (4)) in Heq.
  rewrite slice_0, (slice_from_neg addr 4) in Heq by lia.
  rewrite !length_app, length_take, length_drop in Heq. cbn in Heq. lia.
Qed.

(** ** scripts/interact.js *)

Lemma not__false (v : option string) :
  Interact.not_ v = false -> nonempty (Interact.val v) = true.
Proof. destruct v as [s|]; cbn; [|done]. by destruct (nonempty s). Qed.

Lemma with_contract_Calls env rs rs' :
  Interact.with_contract env rs = Interact.Calls rs' ->
  rs' = rs /\ nonempty (Interact.CONTRACT_ADDRESS env) = true.
Proof.
  unfold Interact.with_contract.
  destruct (nonempty (Interact.CONTRACT_ADDRESS env)); cbn; [|done].
  by intros [= <-].
Qed.

(** X23: when the script's [main] goes on to call the contract, the contract
    address is set, at least one call is made and every string passed to
    the contract is non-empty: a missing or empty variable, the cohort of
    an [issue] included, stops the script before any call. *)
Theorem X23_main_calls (env : Interact.ProcessEnv) (rs : list Interact.Request) :
  Interact.main env = Interact.Calls rs ->
  nonempty (Interact.CONTRACT_ADDRESS env) = true
  /\ rs <> []
  /\ Forall (fun r => Forall (fun a => nonempty a = true) (Interact.arguments r)) rs.
Proof.
  unfold Interact.main. destruct (Interact.CMD env) as [command|]; [|done].
  repeat (destruct (String.eqb command _); [
    repeat match goal with
    | |- context [Interact.not_ ?v] =>
        let H := fresh "H" in
        destruct (Interact.not_ v) eqn:H; cbn [orb]; [done|apply not__false in H]
    end;
    intros [-> Ha]%with_contract_Calls; split; [done|split; [done|]];
    repeat constructor; done |]).
  done.
Qed.

Lemma X23_main_calls_witness :
  let env := Interact.mkProcessEnv (Some "issue") (Some "0xA1") None (Some "ipfs://cid")
               (Some "sha256:00") (Some "C1") None (Some "0xC0") in
  nonempty (Interact.CONTRACT_ADDRESS env) = true.
Proof.
  intros env.
  destruct (X23_main_calls env
    [Interact.do_issueCertificate "0xA1" "ipfs://cid" "sha256:00" "C1"]) as (H & _);
    [vm_compute; reflexivity|exact H].
Defined.




(** ** hooks/useContract.ts *)


(** ** context/WalletContext.tsx *)

Lemma hex_value_hex_digit (d : N) :
  (d < 16)%N -> Chain.hex_value (JS.hex_digit d) = Some (Z.of_N d).
Proof.
  intros Hd.
  destruct d as [|p]; [done|].
  do 5 (try destruct p as [p|p|]); try lia; reflexivity.
Qed.

Lemma toString16_go_S (fuel : nat) (n : N) (acc : list ascii) :
  JS.toString16_go (S fuel) n acc =
    if (n / 16 =? 0)%N then JS.hex_digit (n mod 16) :: acc
    else JS.toString16_go fuel (n / 16)%N (JS.hex_digit (n mod 16) :: acc).
Proof. done. Qed.

Lemma toString16_go_digits (fuel : nat) :
  forall (n : N) (acc : list ascii),
  (n < 16 ^ N.of_nat (S fuel))%N ->
  exists l, JS.toString16_go (S fuel) n acc = l ++ acc /\
    forall a rest, Chain.digits (l ++ rest) a
      = Chain.digits rest (Some (default 0 a * 16 ^ Z.of_nat (length l) + Z.of_N n)).
Proof.
  induction fuel as [|fuel IH]; intros n acc Hn;
    assert (n mod 16 < 16)%N as Hmod by (apply N.mod_lt; lia);
    pose proof (N.div_mod n 16) as Hdm;
    rewrite toString16_go_S; destruct (n / 16 =? 0)%N eqn:Hq.
  1, 3: apply N.eqb_eq in Hq;
    assert (n mod 16 = n)%N as Hsmall by lia;
    exists [JS.hex_digit (n mod 16)]; (split; [done|]); intros a rest;
    cbn [app Chain.digits length]; rewrite hex_value_hex_digit by done;
    rewrite Hsmall; do 2 f_equal; lia.
  - apply N.eqb_neq in Hq. cbn in Hn.
    assert (n / 16 = 0)%N by (apply N.div_small; lia). lia.
  - apply N.eqb_neq in Hq.
    destruct (IH (n / 16)%N (JS.hex_digit (n mod 16) :: acc)) as (l & Hl & Hd).
    { apply N.Div0.div_lt_upper_bound.
      replace (N.of_nat (S (S fuel))) with (N.succ (N.of_nat (S fuel))) in Hn by lia.
      by rewrite N.pow_succ_r' in Hn. }
    exists (l ++ [JS.hex_digit (n mod 16)]). split.
    { by rewrite Hl, <- app_assoc. }
    intros a rest. rewrite <- app_assoc, Hd. cbn [app Chain.digits default].
    rewrite hex_value_hex_digit by done. do 2 f_equal.
    rewrite length_app. cbn [length].
    replace (Z.of_nat (length l + 1)) with (Z.succ (Z.of_nat (length l))) by lia.
    rewrite Z.pow_succ_r by lia.
    assert (Z.of_N n = 16 * Z.of_N (n / 16) + Z.of_N (n mod 16)) as -> by lia.
    generalize (Z.of_N (n / 16)) (Z.of_N (n mod 16)) (16 ^ Z.of_nat (length l)).
    intros. unfold id. lia.
Qed.

Lemma toString16_fuel (n : N) : (n < 16 ^ N.of_nat (S (N.size_nat n)))%N.
Proof.
  destruct n as [|p]; [done|].
  assert (N.pos p < 2 ^ N.of_nat (N.size_nat (N.pos p)))%N as H2.
  { cbn [N.size_nat]. induction p as [p IH|p IH|]; cbn [Pos.size_nat].
    - rewrite Nat2N.inj_succ, N.pow_succ_r'. lia.
    - rewrite Nat2N.inj_succ, N.pow_succ_r'. lia.
    - done. }
  eapply N.lt_le_trans; [exact H2|].
  rewrite Nat2N.inj_succ, N.pow_succ_r'.
  etrans; [|apply (N.le_mul_l _ 16); lia].
  apply N.pow_le_mono_l. lia.
Qed.

Lemma parseInt16_0x (l : list ascii) :
  Chain.parseInt16 (JS.str "0x" ++ l) = Z.mul 1 <$> Chain.digits l None.
Proof. reflexivity. Qed.

Lemma parseInt16_toString16 (n : N) :
  Chain.parseInt16 (JS.str "0x" ++ JS.toString16 n) = Some (Z.of_N n).
Proof.
  destruct (toString16_go_digits (N.size_nat n) n [] (toString16_fuel n)) as (l & Hl & Hd).
  unfold JS.toString16. rewrite Hl, app_nil_r, parseInt16_0x.
  specialize (Hd None []). rewrite app_nil_r in Hd.
  rewrite Hd. cbn [Chain.digits default fmap option_fmap option_map].
  f_equal. by destruct (Z.of_N n).
Qed.

(** X26: [ensureCorrectChain] against a wallet that reports chain [n] as
    "0x" followed by its hexadecimal digits.  It asks nothing beyond
    [eth_chainId] exactly when [n] is the configured chain id; every other
    request names [chainIdHex], which [parseInt(_, 16)] reads as that chain
    id; the chain is added only after a switch was rejected with code 4902;
    it returns normally exactly when the chain was right, the switch was
    accepted, or the rejection was 4902 and the addition was accepted; and
    what it throws is the wallet's own error. *)
Theorem X26_ensureCorrectChain (n : N) (sw ad : option (option Z)) :
  let p := Chain.mkProvider (JS.str "0x" ++ JS.toString16 n) sw ad in
  let reqs := fst (Chain.ensureCorrectChain p) in
  let thrown := snd (Chain.ensureCorrectChain p) in
  (reqs = [Chain.eth_chainId] <-> Z.of_N n = Chain.chainId)
  /\ Forall (fun r => r = Chain.eth_chainId
                      \/ r = Chain.wallet_switchEthereumChain Chain.chainIdHex
                      \/ r = Chain.wallet_addEthereumChain Chain.chainIdHex) reqs
  /\ Chain.parseInt16 (JS.str Chain.chainIdHex) = Some Chain.chainId
  /\ (Chain.wallet_addEthereumChain Chain.chainIdHex ∈ reqs
      <-> Z.of_N n <> Chain.chainId /\ sw = Some (Some 4902))
  /\ (thrown = None
      <-> Z.of_N n = Chain.chainId \/ sw = None \/ (sw = Some (Some 4902) /\ ad = None))
  /\ (forall err, thrown = Some err -> sw = Some err \/ ad = Some err).
Proof.
  intros p reqs thrown. subst reqs thrown p. unfold Chain.ensureCorrectChain.
  cbn [Chain.answer_chainId Chain.reject_switch Chain.reject_add].
  rewrite parseInt16_toString16.
  split_and!; try reflexivity.
  all: case_bool_decide as Hn; [|injection Hn as Hn].
  all: try (assert (Z.of_N n <> Chain.chainId) as Hne by congruence).
  all: destruct sw as [err'|]; try (case_bool_decide as Herr; [subst err'|]); cbn [fst snd].
  all: rewrite ?Forall_cons, ?Forall_nil, ?elem_of_cons, ?elem_of_nil.
  all: intuition congruence.
Qed.
